(** * PA Audio Analyzer: the analysis core and the recommendation engine

    A shallow embedding of [src/pa_analyzer_integrated.py]:

    - [generate_recommendations] (the rule engine) is modelled on Python
      values: dictionaries are finite maps keyed by strings, the metrics are
      binary64 floats (the engine only compares them with integer literals
      and prints them with [:.1f], both of which are modelled exactly), the
      advice is the very text of the source, and the function body is a
      small state-and-exception monad over the call's frame (the two
      argument dictionaries, passed by reference, and the local
      [recommendations]).

    - [AudioAnalyzer] (the numpy / librosa kernels) is modelled in exact
      real arithmetic: a sample is a real number, an array a list, and the
      numpy reductions are the usual sums.  Rounding of the float32 and
      float64 kernels is outside this reading; the statements on the
      analyzer are the exact-arithmetic ones, and those that overflow or
      underflow of a float32 square would break are stated for samples
      within the nominal range.  The same kernels are read a second time
      in binary32 ([Binary32]), to evaluate the code where a square
      overflows. *)

From Stdlib Require Import ZArith List Floats Reals Lra Lia Sorted Ascii.
From stdpp Require Import gmap strings pretty.

Set Warnings "-register-all".

(** ** Python values, exceptions and results *)

Module Py.

(** The kinds of value the program stores in its dictionaries. *)
Inductive pyval :=
| PyFloat (f : float)
| PyInt (z : Z)
| PyStr (s : string)
| PyTuple (l : list pyval)
| PyDict (d : gmap string pyval).

Inductive exception :=
| KeyError (key : string)
| TypeError
| ValueError (msg : string)
| OverflowError
| ZeroDivisionError.

Inductive result (A : Type) :=
| Ok (a : A)
| Raise (e : exception).
Arguments Ok {A} a.
Arguments Raise {A} e.

#[global] Instance result_ret : MRet result := λ A a, Ok a.
#[global] Instance result_bind : MBind result := λ A B f r,
  match r with Ok a => f a | Raise e => Raise e end.
#[global] Instance result_fmap : FMap result := λ A B f r,
  match r with Ok a => Ok (f a) | Raise e => Raise e end.

(** [float(z)] for a Python int: the nearest binary64 value, ties to even;
    an int beyond the binary64 range raises OverflowError. *)
Definition float_of_int (z : Z) : result float :=
  match binary_normalize prec emax z 0 false with
  | S754_infinity _ => Raise OverflowError
  | sf => Ok (SF2Prim sf)
  end.

(** An integer literal of the source, as the float it is compared with
    (the literals of the engine are small: the conversion is exact). *)
Definition lit (z : Z) : float := SF2Prim (binary_normalize prec emax z 0 false).

(** [v < c], [v > c], [c <= v] and [v <= c] for an integer literal [c].
    Python compares a float with an int by value, an int with an int in
    the integers, and raises TypeError for the other kinds of value. *)
Definition py_lt (v : pyval) (c : Z) : result bool :=
  match v with
  | PyFloat f => Ok (f <? lit c)%float
  | PyInt z => Ok (z <? c)%Z
  | _ => Raise TypeError
  end.

Definition py_gt (v : pyval) (c : Z) : result bool :=
  match v with
  | PyFloat f => Ok (lit c <? f)%float
  | PyInt z => Ok (c <? z)%Z
  | _ => Raise TypeError
  end.

Definition py_le (v : pyval) (c : Z) : result bool :=
  match v with
  | PyFloat f => Ok (f <=? lit c)%float
  | PyInt z => Ok (z <=? c)%Z
  | _ => Raise TypeError
  end.

Definition py_ge (v : pyval) (c : Z) : result bool :=
  match v with
  | PyFloat f => Ok (lit c <=? f)%float
  | PyInt z => Ok (c <=? z)%Z
  | _ => Raise TypeError
  end.

(** The chained comparison [lo <= v <= hi]: [lo <= v and v <= hi], the
    second test only when the first holds. *)
Definition py_between (lo : Z) (v : pyval) (hi : Z) : result bool :=
  b ← py_ge v lo; if b : bool then py_le v hi else Ok false.

(** *** The format specification [:.1f] *)

(** Nearest integer to [a / b] for [0 <= a], [0 < b], ties to even. *)
Definition round_half_even_div (a b : Z) : Z :=
  let q := (a / b)%Z in
  let r := (a mod b)%Z in
  match (2 * r ?= b)%Z with
  | Lt => q
  | Gt => (q + 1)%Z
  | Eq => if Z.even q then q else (q + 1)%Z
  end.

(** The number of tenths in [m * 2^e], correctly rounded. *)
Definition tenths (m : positive) (e : Z) : Z :=
  if (0 <=? e)%Z then (Z.pos m * 2 ^ e * 10)%Z
  else round_half_even_div (Z.pos m * 10) (2 ^ (- e)).

Definition fixed1 (neg : bool) (n : Z) : string :=
  (if neg then "-" else "") +:+ pretty (n / 10)%Z +:+ "." +:+ pretty (n mod 10)%Z.

(** [format(x, '.1f')] for a float: one digit after the point, correctly
    rounded from the exact binary value, the sign kept on a zero. *)
Definition format_1f (x : float) : string :=
  match Prim2SF x with
  | S754_nan => "nan"
  | S754_infinity s => if s then "-inf" else "inf"
  | S754_zero s => fixed1 s 0
  | S754_finite s m e => fixed1 s (tenths m e)
  end.

(** [f"{v:.1f}"]: an int is converted with [float(v)] first. *)
Definition py_format_1f (v : pyval) : result string :=
  match v with
  | PyFloat f => Ok (format_1f f)
  | PyInt z => format_1f <$> float_of_int z
  | PyStr _ => Raise (ValueError "Unknown format code 'f' for object of type 'str'")
  | PyTuple _ | PyDict _ => Raise TypeError
  end.

End Py.
Export Py.

(** ** The recommendation engine: [generate_recommendations] *)

Module Engine.

(** The three keys of the [recommendations] dictionary. *)
Inductive category := critical | important | good_points.

(** [recommendations]: one list of messages per key, in append order. *)
Record Recommendations := {
  rec_critical : list string;
  rec_important : list string;
  rec_good_points : list string
}.

Definition no_recommendations : Recommendations :=
  {| rec_critical := []; rec_important := []; rec_good_points := [] |}.

Definition messages (c : category) (r : Recommendations) : list string :=
  match c with
  | critical => rec_critical r
  | important => rec_important r
  | good_points => rec_good_points r
  end.

(** [recommendations[c].append(msg)] *)
Definition list_append (c : category) (msg : string) (r : Recommendations) : Recommendations :=
  match c with
  | critical =>
      {| rec_critical := rec_critical r ++ [msg];
         rec_important := rec_important r;
         rec_good_points := rec_good_points r |}
  | important =>
      {| rec_critical := rec_critical r;
         rec_important := rec_important r ++ [msg];
         rec_good_points := rec_good_points r |}
  | good_points =>
      {| rec_critical := rec_critical r;
         rec_important := rec_important r;
         rec_good_points := rec_good_points r ++ [msg] |}
  end.

(** The frame of one call: the two arguments, which the caller still
    holds (Python passes the dictionaries by reference), and the local
    [recommendations]. *)
Record frame := {
  analysis_data : gmap string pyval;
  metadata : gmap string pyval;
  recommendations : Recommendations
}.

(** Statements of the body: a frame transformer that may raise. *)
Definition M (A : Type) : Type := frame → result (A * frame).

#[global] Instance M_ret : MRet M := λ A a s, Ok (a, s).
#[global] Instance M_bind : MBind M := λ A B f m s,
  match m s with Ok (a, s') => f a s' | Raise e => Raise e end.

(** An expression that reads no variable. *)
Definition eval {A} (r : result A) : M A := λ s,
  match r with Ok a => Ok (a, s) | Raise e => Raise e end.

(** [recommendations = {...}] *)
Definition assign_recommendations (r : Recommendations) : M unit := λ s,
  Ok (tt, {| analysis_data := analysis_data s;
             metadata := metadata s;
             recommendations := r |}).

(** [analysis_data[key]] *)
Definition getitem_analysis_data (key : string) : M pyval := λ s,
  match analysis_data s !! key with
  | Some v => Ok (v, s)
  | None => Raise (KeyError key)
  end.

(** [recommendations[c].append(msg)] *)
Definition append (c : category) (msg : string) : M unit := λ s,
  Ok (tt, {| analysis_data := analysis_data s;
             metadata := metadata s;
             recommendations := list_append c msg (recommendations s) |}).

(** [return recommendations] *)
Definition return_recommendations : M Recommendations := λ s,
  Ok (recommendations s, s).

(** The f-strings of the source, around the formatted metric. *)
Definition msg_rms_low (v : string) : string :=
  "⚠️ 全体音圧が低すぎます（" +:+ v +:+ "dB）。マスターフェーダーを上げ、-18dB前後を目標にしてください。".
Definition msg_rms_high (v : string) : string :=
  "⚠️ 全体音圧が高すぎます（" +:+ v +:+ "dB）。ヘッドルームがなく、歪みのリスクがあります。".
Definition msg_rms_good (v : string) : string :=
  "✅ 全体音圧が適切です（" +:+ v +:+ "dB）。ライブに最適なレベルです。".
Definition msg_peak_high (v : string) : string :=
  "⚠️ ピークレベルが高すぎます（" +:+ v +:+ "dB）。クリッピングの危険があります。".
Definition msg_peak_low (v : string) : string :=
  "📌 ピークレベルに余裕があります（" +:+ v +:+ "dB）。もう少し音圧を上げられます。".
Definition msg_cf_low (v : string) : string :=
  "📌 クレストファクターが低いです（" +:+ v +:+ "dB）。過圧縮の可能性があります。".
Definition msg_cf_high (v : string) : string :=
  "📌 クレストファクターが高いです（" +:+ v +:+ "dB）。ダイナミクスが大きすぎる可能性があります。".
Definition msg_cf_good (v : string) : string :=
  "✅ クレストファクターが理想的です（" +:+ v +:+ "dB）。良好なダイナミックバランスです。".
Definition msg_width_narrow (v : string) : string :=
  "📌 ステレオ幅が狭いです（" +:+ v +:+ "%）。パンニングを見直してください。".
Definition msg_width_wide (v : string) : string :=
  "📌 ステレオ幅が広すぎます（" +:+ v +:+ "%）。モノラル環境で問題が出る可能性があります。".
Definition msg_width_good (v : string) : string :=
  "✅ ステレオ幅が理想的です（" +:+ v +:+ "%）。バランスの良い音場です。".

(** [recommendations[c].append(f"...{v:.1f}...")] *)
Definition advise (c : category) (template : string → string) (v : pyval) : M unit :=
  text ← eval (py_format_1f v); append c (template text).

(** The block under [# RMS音圧チェック]. *)
Definition check_rms : M unit :=
  rms ← getitem_analysis_data "rms_db";
  low ← eval (py_lt rms (-23));
  if low : bool then advise critical msg_rms_low rms
  else
    high ← eval (py_gt rms (-14));
    if high : bool then advise critical msg_rms_high rms
    else
      good ← eval (py_between (-20) rms (-16));
      if good : bool then advise good_points msg_rms_good rms
      else mret tt.

(** The block under [# Peakチェック]. *)
Definition check_peak : M unit :=
  peak ← getitem_analysis_data "peak_db";
  high ← eval (py_gt peak (-1));
  if high : bool then advise critical msg_peak_high peak
  else
    low ← eval (py_lt peak (-6));
    if low : bool then advise important msg_peak_low peak
    else mret tt.

(** The block under [# Crest Factor]. *)
Definition check_crest_factor : M unit :=
  cf ← getitem_analysis_data "crest_factor";
  low ← eval (py_lt cf 8);
  if low : bool then advise important msg_cf_low cf
  else
    high ← eval (py_gt cf 16);
    if high : bool then advise important msg_cf_high cf
    else
      good ← eval (py_between 10 cf 14);
      if good : bool then advise good_points msg_cf_good cf
      else mret tt.

(** The block under [# Stereo Width]. *)
Definition check_stereo_width : M unit :=
  width ← getitem_analysis_data "stereo_width";
  narrow ← eval (py_lt width 30);
  if narrow : bool then advise important msg_width_narrow width
  else
    wide ← eval (py_gt width 80);
    if wide : bool then advise important msg_width_wide width
    else
      good ← eval (py_between 50 width 70);
      if good : bool then advise good_points msg_width_good width
      else mret tt.

(** The body of [generate_recommendations], statement by statement. *)
Definition generate_recommendations_body : M Recommendations :=
  assign_recommendations no_recommendations;;
  check_rms;;
  check_peak;;
  check_crest_factor;;
  check_stereo_width;;
  return_recommendations.

(** A call: the frame is entered with the two arguments; what comes back
    is the returned value, or the exception raised. *)
Definition call (analysis_data metadata : gmap string pyval) : result (Recommendations * frame) :=
  generate_recommendations_body
    {| analysis_data := analysis_data;
       metadata := metadata;
       recommendations := no_recommendations |}.

Definition generate_recommendations (analysis_data metadata : gmap string pyval)
  : result Recommendations :=
  fst <$> call analysis_data metadata.


(** *** What one block contributes *)

(** Two results side by side: the lists of each key, concatenated. *)
Definition merge (r1 r2 : Recommendations) : Recommendations :=
  {| rec_critical := rec_critical r1 ++ rec_critical r2;
     rec_important := rec_important r1 ++ rec_important r2;
     rec_good_points := rec_good_points r1 ++ rec_good_points r2 |}.

(** The number of messages, all keys together. *)
Definition count (r : Recommendations) : nat :=
  length (rec_critical r) + length (rec_important r) + length (rec_good_points r).

(** The messages a block appends when run on its own, from empty lists. *)
Definition advice_of (block : M unit) (analysis_data : gmap string pyval)
  : result Recommendations :=
  match block {| analysis_data := analysis_data;
                 metadata := ∅;
                 recommendations := no_recommendations |} with
  | Ok (_, s) => Ok (recommendations s)
  | Raise e => Raise e
  end.

(** The advice on peak, crest factor and stereo width, in that order. *)
Definition advice_after_rms (analysis_data : gmap string pyval) : result Recommendations :=
  r2 ← advice_of check_peak analysis_data;
  r3 ← advice_of check_crest_factor analysis_data;
  r4 ← advice_of check_stereo_width analysis_data;
  Ok (merge (merge r2 r3) r4).

(** A block [emits] when all it does to a frame is to append, to the
    local [recommendations], the messages of [advice_of]: it reads
    [analysis_data] only, and writes neither argument. *)
Definition emits (block : M unit) : Prop :=
  ∀ s, block s =
       match advice_of block (analysis_data s) with
       | Ok δ => Ok (tt, {| analysis_data := analysis_data s;
                            metadata := metadata s;
                            recommendations := merge (recommendations s) δ |})
       | Raise e => Raise e
       end.

(** A block [reads_only] a key when its advice is the same on any two
    dictionaries that agree on that key. *)
Definition reads_only (key : string) (block : M unit) : Prop :=
  ∀ d1 d2 : gmap string pyval,
    d1 !! key = d2 !! key → advice_of block d1 = advice_of block d2.

(** A block gives [at_most_one] message on a dictionary. *)
Definition at_most_one (d : gmap string pyval) (block : M unit) : Prop :=
  match advice_of block d with
  | Ok δ => (count δ ≤ 1)%nat
  | Raise _ => True
  end.

(** A descriptor holding the four metrics the engine reads, whatever else
    [d] holds. *)
Definition with_metrics (rms peak cf width : pyval) (d : gmap string pyval)
  : gmap string pyval :=
  <["rms_db" := rms]>
    (<["peak_db" := peak]>
       (<["crest_factor" := cf]>
          (<["stereo_width" := width]> d))).

End Engine.
Export Engine.

(** ** numpy and librosa on real arrays *)

Module Numpy.
Local Open Scope R_scope.

(** The guard added before every logarithm. *)
Definition eps : R := 1e-10.

Definition np_sum (a : list R) : R := fold_right Rplus 0 a.

(** [np.mean(a)].  (On an empty array numpy warns and yields nan; every
    use below is on an array in which that cannot matter.) *)
Definition np_mean (a : list R) : R := np_sum a / INR (length a).

Definition np_abs (a : list R) : list R := map Rabs a.

(** [a ** 2] *)
Definition np_square (a : list R) : list R := map (fun x => x ^ 2) a.

(** numpy's message when [np.max] is given an empty array. *)
Definition zero_size_maximum : string :=
  "zero-size array to reduction operation maximum which has no identity".

(** [np.max(a)]: a reduction without identity, refused on an empty array. *)
Definition np_max (a : list R) : result R :=
  match a with
  | [] => Raise (ValueError zero_size_maximum)
  | x :: t => Ok (fold_left Rmax t x)
  end.

(** [np.clip(x, lo, hi)] is [minimum(maximum(x, lo), hi)]. *)
Definition np_clip (x lo hi : R) : R := Rmin (Rmax x lo) hi.

Definition np_log10 (x : R) : R := ln x / ln 10.

(** Elementwise operations on two arrays of one shape. *)
Fixpoint map2 (f : R → R → R) (a b : list R) : list R :=
  match a, b with
  | x :: a', y :: b' => f x y :: map2 f a' b'
  | _, _ => []
  end.

(** A two-dimensional array is the list of its rows (the channels); its
    second dimension is the length of a row.  An array without rows, of
    shape (0, n), is not represented: [librosa.load] returns none, and
    the statements below are on buffers of one channel or more. *)
Definition column (y : list (list R)) (i : nat) : list R :=
  map (fun row => nth i row 0) y.

(** [np.mean(y, axis=0)] *)
Definition np_mean_axis0 (y : list (list R)) : list R :=
  map (fun i => np_mean (column y i)) (seq 0 (length (hd [] y))).

(** Insertion of [x] in a sorted list, and the sort [np.percentile] rests on. *)
Fixpoint insert_sorted (x : R) (l : list R) : list R :=
  match l with
  | [] => [x]
  | y :: l' => if Rle_dec x y then x :: l else y :: insert_sorted x l'
  end.

Definition np_sort (a : list R) : list R := fold_right insert_sorted [] a.

(** [np.percentile(a, q)] for an integer [q] and a non-empty [a], with the
    default linear interpolation: the virtual index [q / 100 * (n - 1)]
    splits into the index below it and the fraction [g] above. *)
Definition np_percentile (a : list R) (q : nat) : R :=
  let sorted := np_sort a in
  let n := length a in
  let below := ((q * (n - 1)) / 100)%nat in
  let above := Nat.min (below + 1) (n - 1) in
  let g := INR ((q * (n - 1)) mod 100) / 100 in
  nth below sorted 0 + g * (nth above sorted 0 - nth below sorted 0).

(** [np.pad(y, (w, w), mode="constant")] *)
Definition np_pad (y : list R) (w : nat) : list R :=
  repeat 0 w ++ y ++ repeat 0 w.

(** [librosa.util.frame]: the overlapping windows of [frame_length]
    samples, one every [hop_length] samples. *)
Definition util_frame (y : list R) (frame_length hop_length : nat) : list (list R) :=
  map (fun t => firstn frame_length (skipn (t * hop_length) y))
      (seq 0 (1 + (length y - frame_length) / hop_length)).

(** [librosa.feature.rms(y=y, frame_length=.., hop_length=..)[0]] with the
    library's defaults [center=True, pad_mode="constant"]: the signal is
    padded by half a frame of zeros on both sides, framed, and each frame
    gives [sqrt(mean(abs(x)**2))]. *)
Definition librosa_feature_rms (y : list R) (frame_length hop_length : nat) : list R :=
  map (fun x => sqrt (np_mean (np_square (np_abs x))))
      (util_frame (np_pad y (frame_length / 2)) frame_length hop_length).

(** The result of [librosa.load(path, sr=.., mono=False)]: a one-dimensional
    array for a single-channel file, else one row per channel. *)
Inductive ndarray :=
| Array1 (samples : list R)
| Array2 (rows : list (list R)).

(** [a / b] on Python numbers. *)
Definition py_truediv (a b : R) : result R :=
  if Req_dec_T b 0 then Raise ZeroDivisionError else Ok (a / b).

End Numpy.
Export Numpy.

(** ** The analyzer: [AudioAnalyzer] *)

Module Analyzer.
Local Open Scope R_scope.

(** The attributes of an [AudioAnalyzer] once [__init__] has run. *)
Record AudioAnalyzer := {
  self_y : list (list R);
  self_sr : R;
  self_duration : R
}.

(** [load_audio], from what [librosa.load] returned: a one-dimensional
    array is stacked on itself; [librosa.get_duration] is the number of
    samples of a row over the rate. *)
Definition load_audio (loaded : ndarray) (rate : R) : AudioAnalyzer :=
  let y :=
    match loaded with
    | Array1 samples => [samples; samples]
    | Array2 rows => rows
    end in
  {| self_y := y;
     self_sr := rate;
     self_duration := INR (length (hd [] y)) / rate |}.

(** The dictionary returned by [analyze_2mix]. *)
Record MixDescriptor := {
  rms_db : R;
  peak_db : R;
  crest_factor : R;
  stereo_width : R;
  band_energies : list (string * R);
  dynamic_range : R;
  duration : R
}.

(** [np.sum(((L + R) / 2) ** 2)] and [np.sum(((L - R) / 2) ** 2)] *)
Definition mid_energy (left right : list R) : R :=
  let mid := map (fun x => x / 2) (map2 Rplus left right) in
  np_sum (np_square mid).

Definition side_energy (left right : list R) : R :=
  let side := map (fun x => x / 2) (map2 Rminus left right) in
  np_sum (np_square side).

Definition calculate_stereo_width (self : AudioAnalyzer) : R :=
  if (length (self_y self) <? 2)%nat then 0
  else
    let left := nth 0 (self_y self) [] in
    let right := nth 1 (self_y self) [] in
    let mid_energy := mid_energy left right in
    let side_energy := side_energy left right in
    if Req_dec_T (mid_energy + side_energy) 0 then 0
    else
      let width := side_energy / (mid_energy + side_energy) * 100 in
      np_clip width 0 100.

(** The local [bands] of [calculate_band_energies], in source order. *)
Definition bands : list (string * (R * R)) :=
  [ ("sub_bass", (20, 60));
    ("bass", (60, 250));
    ("low_mid", (250, 500));
    ("mid", (500, 2000));
    ("high_mid", (2000, 4000));
    ("presence", (4000, 8000));
    ("brilliance", (8000, 20000)) ].

Definition calculate_dynamic_range (audio : list R) : R :=
  let rms_values := librosa_feature_rms audio 2048 512 in
  let rms_db := map (fun v => 20 * np_log10 (v + eps)) rms_values in
  let percentile_95 := np_percentile rms_db 95 in
  let percentile_10 := np_percentile rms_db 10 in
  percentile_95 - percentile_10.

(** [audio * 0] *)
Definition times_zero (audio : list R) : list R := map (fun x => x * 0) audio.

Section Scipy.

(** scipy's filter design and filtering are taken as they come: the
    second-order sections are an opaque value, and either call may raise. *)
Variable sos : Type.
Variable signal_butter : nat → R → R → result sos.
Variable signal_sosfilt : sos → list R → result (list R).

Definition bandpass_filter (self : AudioAnalyzer) (audio : list R) (low high : R)
  : result (list R) :=
  let nyq := self_sr self / 2 in
  low_norm ← py_truediv low nyq;
  high_norm ← py_truediv high nyq;
  let low_norm := np_clip low_norm 0.001 0.999 in
  let high_norm := np_clip high_norm 0.001 0.999 in
  if Rge_dec low_norm high_norm then Ok (times_zero audio)
  else
    match sos ← signal_butter 4 low_norm high_norm; signal_sosfilt sos audio with
    | Ok filtered => Ok filtered
    | Raise _ => Ok (times_zero audio)
    end.

Definition calculate_band_energies (self : AudioAnalyzer) (audio : list R)
  : result (list (string * R)) :=
  mapM (fun band : string * (R * R) =>
          let '(name, (low, high)) := band in
          filtered ← bandpass_filter self audio low high;
          let energy_db := 20 * np_log10 (sqrt (np_mean (np_square filtered)) + eps) in
          Ok (name, energy_db))
       bands.

Definition analyze_2mix (self : AudioAnalyzer) : result MixDescriptor :=
  let mono := np_mean_axis0 (self_y self) in
  let rms := librosa_feature_rms mono 2048 512 in
  let rms_db := 20 * np_log10 (np_mean rms + eps) in
  peak ← np_max (np_abs mono);
  let peak_db := 20 * np_log10 (peak + eps) in
  let crest_factor := peak_db - rms_db in
  let stereo_width := calculate_stereo_width self in
  band_energies ← calculate_band_energies self mono;
  let dynamic_range := calculate_dynamic_range mono in
  Ok {| rms_db := rms_db;
        peak_db := peak_db;
        crest_factor := crest_factor;
        stereo_width := stereo_width;
        band_energies := band_energies;
        dynamic_range := dynamic_range;
        duration := self_duration self |}.

End Scipy.

(** *** Shapes of buffers *)

(** What [librosa.load(.., mono=False)] can return: a one-dimensional array
    for a single-channel file, and a two-dimensional one only for a file of
    two channels or more. *)
Definition librosa_load_shape (loaded : ndarray) : Prop :=
  match loaded with
  | Array1 _ => True
  | Array2 rows => (2 ≤ length rows)%nat
  end.

(** The number of samples of a channel. *)
Definition n_samples (self : AudioAnalyzer) : nat := length (hd [] (self_y self)).

(** A buffer within the precondition of the extractor: one channel or
    more, all of one positive length, at a positive rate. *)
Definition valid_buffer (self : AudioAnalyzer) : Prop :=
  (1 ≤ length (self_y self))%nat ∧
  (1 ≤ n_samples self)%nat ∧
  Forall (fun row => length row = n_samples self) (self_y self) ∧
  0 < self_sr self.

(** A buffer of silence: every sample of every channel is zero. *)
Definition all_zero (self : AudioAnalyzer) : Prop :=
  Forall (Forall (fun x => x = 0)) (self_y self).

(** The class of an exception, as Python names it. *)
Definition class_name (e : exception) : string :=
  match e with
  | KeyError _ => "KeyError"
  | TypeError => "TypeError"
  | ValueError _ => "ValueError"
  | OverflowError => "OverflowError"
  | ZeroDivisionError => "ZeroDivisionError"
  end.

End Analyzer.
Export Analyzer.

(** ** Sample inputs *)

Module Samples.

(** A descriptor as the application holds it after an analysis: the
    dictionary of [analyze_2mix] with the [instruments] entry added. *)
Definition descriptor_full : gmap string pyval :=
  <["rms_db" := PyFloat (-18.5)]>
    (<["peak_db" := PyFloat (-3.25)]>
       (<["crest_factor" := PyFloat 15.25]>
          (<["stereo_width" := PyFloat 55]>
             (<["band_energies" :=
                  PyDict (<["sub_bass" := PyFloat (-40)]> (<["bass" := PyFloat (-22.5)]> ∅))]>
                (<["dynamic_range" := PyFloat 9.5]>
                   (<["duration" := PyFloat 183.25]>
                      (<["instruments" :=
                           PyDict (<["kick" :=
                                       PyDict (<["name" := PyStr "キック"]>
                                                 (<["freq_range" := PyTuple [PyInt 40; PyInt 100]]> ∅))]> ∅)]>
                         ∅))))))).

(** The same four metrics and nothing else. *)
Definition descriptor_bare : gmap string pyval :=
  with_metrics (PyFloat (-18.5)) (PyFloat (-3.25)) (PyFloat 15.25) (PyFloat 55) ∅.

Definition metadata_club : gmap string pyval :=
  <["analysis_name" := PyStr "soundcheck"]>
    (<["venue" := PyStr "club"]> (<["venue_capacity" := PyInt 300]> ∅)).

(** Stand-ins for scipy: a design that always succeeds and a filter that
    lets the signal through. *)
Definition identity_butter (order : nat) (low high : R) : result unit := Ok tt.
Definition identity_sosfilt (design : unit) (audio : list R) : result (list R) := Ok audio.

(** Two channels of two samples, and the analyzers [__init__] builds from
    a stereo file, from a mono file of silence and from an empty file. *)
Definition stereo_analyzer : AudioAnalyzer :=
  load_audio (Array2 [[1 / 2; -1 / 4]; [1 / 2; 0]]%R) 44100.

Definition silent_analyzer : AudioAnalyzer :=
  load_audio (Array1 [0; 0; 0]%R) 44100.

Definition empty_analyzer : AudioAnalyzer :=
  load_audio (Array1 []) 44100.

End Samples.
Export Samples.

(** ** The instrument extractor: [analyze_instrument] *)

Module Instrument.
Local Open Scope R_scope.


Section Librosa.

Variable sos : Type.
Variable signal_butter : nat → R → R → result sos.
Variable signal_sosfilt : sos → list R → result (list R).

(** [librosa.feature.spectral_centroid(y=.., sr=..)[0]], taken as it comes:
    one centroid per analysis frame. *)
Variable feature_spectral_centroid : list R → R → list R.


End Librosa.

(** scipy's filtering returns an array of the shape of its input. *)
Definition keeps_length {sos : Type} (signal_sosfilt : sos → list R → result (list R)) : Prop :=
  ∀ design audio out, signal_sosfilt design audio = Ok out → length out = length audio.

(** The names of the seven bands, in the order of the table. *)
Definition band_names : list string := map fst bands.

End Instrument.
Export Instrument.

(** ** Python string methods *)

Module PyString.

(** [s.startswith(p)] *)
Fixpoint startswith (s p : string) {struct p} : bool :=
  match p with
  | EmptyString => true
  | String a p' =>
      match s with
      | EmptyString => false
      | String b s' => if Ascii.eqb a b then startswith s' p' else false
      end
  end.

(** [s.replace(old, new)] for a pattern [old] that is not empty: the
    occurrences are found from the left and do not overlap.  [skip] counts
    the characters of an occurrence still to pass over. *)
Fixpoint replace_from (old new : string) (skip : nat) (s : string) : string :=
  match s with
  | EmptyString => EmptyString
  | String c s' =>
      match skip with
      | S k => replace_from old new k s'
      | O =>
          if startswith s old
          then new +:+ replace_from old new (String.length old - 1) s'
          else String c (replace_from old new 0 s')
      end
  end.

Definition str_replace (old new : string) (s : string) : string :=
  replace_from old new 0 s.

(** [c in s] for a character. *)
Fixpoint contains (c : Ascii.ascii) (s : string) : bool :=
  match s with
  | EmptyString => false
  | String a s' => Ascii.eqb a c || contains c s'
  end.

(** [s.split(sep)] for a separator of one character. *)
Fixpoint split (sep : Ascii.ascii) (s : string) : list string :=
  match s with
  | EmptyString => [EmptyString]
  | String a s' =>
      if Ascii.eqb a sep then EmptyString :: split sep s'
      else
        match split sep s' with
        | part :: parts => String a part :: parts
        | [] => [String a EmptyString]
        end
  end.

End PyString.
Export PyString.

(** ** The per-user store of analyses: [UserAudioDatabase] *)

Module AudioStore.

(** The file name under [db_dir] that [_get_user_db_path] builds. *)
Definition safe_email (email : string) : string :=
  str_replace "." "_" (str_replace "@" "_at_" email).

Definition _get_user_db_path (email : string) : string :=
  safe_email email +:+ ".json".

(** The address [get_all_analyses_for_admin] reads back from the stem of
    a file name. *)
Definition restored_email (stem : string) : string :=
  str_replace "_" "." (str_replace "_at_" "@" stem).

Section Store.

(** [metadata] and [analysis_data] as [json.dump] writes them. *)
Variable payload : Type.

(** An element of the [analyses] list of a user's file. *)
Record entry := {
  entry_id : string;
  entry_timestamp : string;
  entry_metadata : payload;
  entry_analysis : payload
}.

(** The directory [db_dir]: the [analyses] list of each file, by file
    name.  (File names are taken as plain names within the directory, and
    the files as written by this class: an address with a "/" gives a
    path, on which [open(.., 'w')] raises FileNotFoundError or writes
    outside [db_dir]; the statement on writing is for plain names.) *)
Definition directory : Type := gmap string (list entry).

(** [add_analysis]; the two readings of the clock, formatted, are [id_now]
    and [timestamp_now]. *)
Definition add_analysis (dir : directory) (email : string)
    (analysis_data metadata : payload) (id_now timestamp_now : string)
  : string * directory :=
  let db_path := _get_user_db_path email in
  let data := match dir !! db_path with Some analyses => analyses | None => [] end in
  let new_entry := {| entry_id := id_now;
                      entry_timestamp := timestamp_now;
                      entry_metadata := metadata;
                      entry_analysis := analysis_data |} in
  (entry_id new_entry, <[db_path := data ++ [new_entry]]> dir).

(** [analyses.sort(key=lambda x: x['timestamp'], reverse=True)]: a stable
    sort, newest first. *)
Fixpoint insert_newest_first (x : entry) (l : list entry) : list entry :=
  match l with
  | [] => [x]
  | y :: l' =>
      if String.leb (entry_timestamp y) (entry_timestamp x) then x :: l
      else y :: insert_newest_first x l'
  end.

Definition sort_newest_first (l : list entry) : list entry :=
  fold_right insert_newest_first [] l.

(** [analyses[:limit]] *)
Definition slice_to (l : list entry) (limit : Z) : list entry :=
  if (0 <=? limit)%Z then firstn (Z.to_nat limit) l
  else firstn (length l - Z.to_nat (- limit)) l.

(** [get_user_analyses]; [limit] is [None] or an int. *)
Definition get_user_analyses (dir : directory) (email : string) (limit : option Z)
  : list entry :=
  let db_path := _get_user_db_path email in
  match dir !! db_path with
  | None => []
  | Some analyses =>
      let analyses := sort_newest_first analyses in
      match limit with
      | Some n => if (n =? 0)%Z then analyses else slice_to analyses n
      | None => analyses
      end
  end.

(** [delete_analysis] *)
Definition delete_analysis (dir : directory) (email : string) (analysis_id : string)
  : bool * directory :=
  let db_path := _get_user_db_path email in
  match dir !! db_path with
  | None => (false, dir)
  | Some analyses =>
      let original_count := length analyses in
      let kept := filter (fun a => entry_id a ≠ analysis_id) analyses in
      if (length kept <? original_count)%nat
      then (true, <[db_path := kept]> dir)
      else (false, dir)
  end.

End Store.

End AudioStore.
Export AudioStore.

(** ** The user database: [UserDatabase] *)

Module Users.

(** The values this code stores in [users.json]: None, integers, texts
    and dictionaries. *)
Inductive jval :=
| JNull
| JInt (z : Z)
| JStr (s : string)
| JObj (d : gmap string jval).

(** [users.json]: not there, there but not readable as JSON, or holding an
    object. *)
Inductive file_state :=
| Missing
| Corrupt
| Holds (d : gmap string jval).

(** The attributes of a [UserDatabase]: the dictionary [users], and the
    file at [db_path]. *)
Record UserDatabase := {
  users : gmap string jval;
  users_file : file_state
}.

(** [save] *)
Definition save (self : UserDatabase) : UserDatabase :=
  {| users := users self; users_file := Holds (users self) |}.

(** What [register_user] and [change_password] return. *)
Definition msg_already_registered : string := "このメールアドレスは既に登録されています".
Definition msg_registered : string := "登録が完了しました".
Definition msg_bad_credentials : string := "メールアドレスまたはパスワードが正しくありません".
Definition msg_user_not_found : string := "ユーザーが見つかりません".
Definition msg_wrong_password : string := "現在のパスワードが正しくありません".
Definition msg_password_changed : string := "パスワードを変更しました".

Definition admin_email : string := "admin@pa-analyzer.local".
Definition admin_password : string := "admin123".

(** What [authenticate] returns: [(False, message)] or [(True, user)]. *)
Inductive authentication :=
| Rejected (message : string)
| Accepted (user : jval).

(** [obj[key]] on a value of the file. *)
Definition getitem (obj : jval) (key : string) : result jval :=
  match obj with
  | JObj d =>
      match d !! key with
      | Some v => Ok v
      | None => Raise (KeyError key)
      end
  | _ => Raise TypeError
  end.

(** [obj[key] = value] *)
Definition setitem (obj : jval) (key : string) (value : jval) : result jval :=
  match obj with
  | JObj d => Ok (JObj (<[key := value]> d))
  | _ => Raise TypeError
  end.

Section Hashing.

(** [hashlib.sha256(text.encode()).hexdigest()], taken as it comes. *)
Variable sha256_hexdigest : string → string.

(** [_hash_password]; [salt] is what [secrets.token_hex(16)] drew. *)
Definition _hash_password (salt : string) (password : string) : string :=
  let pwd_hash := sha256_hexdigest (password +:+ salt) in
  salt +:+ ":" +:+ pwd_hash.

(** [_verify_password]: whatever goes wrong inside the [try] gives False. *)
Definition _verify_password (password : string) (stored_hash : jval) : bool :=
  match stored_hash with
  | JStr stored =>
      match split ":" stored with
      | [salt; pwd_hash] =>
          let test_hash := sha256_hexdigest (password +:+ salt) in
          String.eqb test_hash pwd_hash
      | _ => false
      end
  | _ => false
  end.

(** [create_default_admin] *)
Definition create_default_admin (self : UserDatabase) (salt now : string) : UserDatabase :=
  let admin :=
    JObj (<["email" := JStr admin_email]>
         (<["password_hash" := JStr (_hash_password salt admin_password)]>
         (<["name" := JStr "管理者"]>
         (<["role" := JStr "admin"]>
         (<["created_at" := JStr now]>
         (<["profile" :=
              JObj (<["organization" := JStr "PA Analyzer 運営"]>
                   (<["location" := JStr ""]>
                   (<["bio" := JStr "システム管理者"]> ∅)))]> ∅)))))) in
  save {| users := <[admin_email := admin]> (users self);
          users_file := users_file self |}.

(** [load] *)
Definition load (self : UserDatabase) (salt now : string) : UserDatabase :=
  match users_file self with
  | Holds d => {| users := d; users_file := users_file self |}
  | Corrupt => {| users := ∅; users_file := users_file self |}
  | Missing => create_default_admin self salt now
  end.

(** [__init__] *)
Definition __init__ (db_path : file_state) (salt now : string) : UserDatabase :=
  load {| users := ∅; users_file := db_path |} salt now.

(** The record [register_user] stores. *)
Definition new_user (email password_hash name organization location now : string) : jval :=
  JObj (<["email" := JStr email]>
       (<["password_hash" := JStr password_hash]>
       (<["name" := JStr name]>
       (<["role" := JStr "user"]>
       (<["created_at" := JStr now]>
       (<["last_login" := JNull]>
       (<["profile" :=
            JObj (<["organization" := JStr organization]>
                 (<["location" := JStr location]>
                 (<["bio" := JStr ""]> ∅)))]>
       (<["stats" :=
            JObj (<["total_analyses" := JInt 0]>
                 (<["last_analysis_date" := JNull]> ∅))]> ∅)))))))).

(** [register_user] *)
Definition register_user (self : UserDatabase)
    (email password name organization location : string) (salt now : string)
  : (bool * string) * UserDatabase :=
  match users self !! email with
  | Some _ => ((false, msg_already_registered), self)
  | None =>
      let user := new_user email (_hash_password salt password) name organization location now in
      ((true, msg_registered),
       save {| users := <[email := user]> (users self); users_file := users_file self |})
  end.

(** [authenticate] *)
Definition authenticate (self : UserDatabase) (email password : string) (now : string)
  : result (authentication * UserDatabase) :=
  match users self !! email with
  | None => Ok (Rejected msg_bad_credentials, self)
  | Some user =>
      stored_hash ← getitem user "password_hash";
      if negb (_verify_password password stored_hash)
      then Ok (Rejected msg_bad_credentials, self)
      else
        user ← setitem user "last_login" (JStr now);
        Ok (Accepted user,
            save {| users := <[email := user]> (users self); users_file := users_file self |})
  end.

(** [get_user] *)
Definition get_user (self : UserDatabase) (email : string) : option jval :=
  users self !! email.

(** [x += 1] on a value of the file. *)
Definition add_one (v : jval) : result jval :=
  match v with
  | JInt n => Ok (JInt (n + 1))
  | _ => Raise TypeError
  end.

(** [update_user_stats] *)
Definition update_user_stats (self : UserDatabase) (email : string) (now : string)
  : result UserDatabase :=
  match users self !! email with
  | None => Ok self
  | Some user =>
      stats ← getitem user "stats";
      total ← getitem stats "total_analyses";
      total ← add_one total;
      stats ← setitem stats "total_analyses" total;
      stats ← setitem stats "last_analysis_date" (JStr now);
      user ← setitem user "stats" stats;
      Ok (save {| users := <[email := user]> (users self); users_file := users_file self |})
  end.

(** [change_password] *)
Definition change_password (self : UserDatabase) (email old_password new_password : string)
    (salt : string) : result ((bool * string) * UserDatabase) :=
  match users self !! email with
  | None => Ok ((false, msg_user_not_found), self)
  | Some user =>
      stored_hash ← getitem user "password_hash";
      if negb (_verify_password old_password stored_hash)
      then Ok ((false, msg_wrong_password), self)
      else
        user ← setitem user "password_hash" (JStr (_hash_password salt new_password));
        Ok ((true, msg_password_changed),
            save {| users := <[email := user]> (users self); users_file := users_file self |})
  end.

End Hashing.

(** A text without ":", as the hexadecimal salts and digests are. *)
Definition no_colon (s : string) : Prop := contains ":"%char s = false.

(** A stand-in for the digest in the examples: the text in hexadecimal. *)
Definition hex_digit (n : N) : ascii :=
  nth (N.to_nat n) (String.list_ascii_of_string "0123456789abcdef") "0"%char.

Fixpoint hex_text (s : string) : string :=
  match s with
  | EmptyString => EmptyString
  | String c s' =>
      String (hex_digit (N_of_ascii c / 16))
        (String (hex_digit (N_of_ascii c mod 16)) (hex_text s'))
  end.

(** A database with one registered account, for the examples. *)
Definition one_account : UserDatabase :=
  (register_user hex_text (__init__ hex_text Corrupt "00" "2024-01-01T00:00:00")
     "pa@example.com" "secret" "PA" "" "" "a1b2" "2024-01-02T10:00:00").2.

End Users.
Export Users.

(** ** Addresses, for the statements on file names *)

Module Addresses.

(** What [safe_email] writes for one character of the address. *)
Definition encode_char (c : Ascii.ascii) : string :=
  if Ascii.eqb c "@"%char then "_at_"
  else if Ascii.eqb c "."%char then "_"
  else String c EmptyString.

(** [s] with [f c] in place of each character [c]. *)
Fixpoint flat_map_string (f : Ascii.ascii → string) (s : string) : string :=
  match s with
  | EmptyString => EmptyString
  | String c s' => f c +:+ flat_map_string f s'
  end.

Definition is_separator (c : Ascii.ascii) : bool :=
  Ascii.eqb c "@"%char || Ascii.eqb c "."%char.

(** [s] starts with "at" followed by "@" or ".". *)
Definition at_then_separator (s : string) : bool :=
  match s with
  | String a (String t (String c _)) =>
      Ascii.eqb a "a"%char && Ascii.eqb t "t"%char && is_separator c
  | _ => false
  end.

(** An address without "_", and without "at" standing between two
    separators ("@" or "."). *)
Fixpoint plain_address (s : string) : bool :=
  match s with
  | EmptyString => true
  | String c s' =>
      negb (Ascii.eqb c "_"%char)
      && (if is_separator c then negb (at_then_separator s') else true)
      && plain_address s'
  end.

End Addresses.
Export Addresses.

(** ** Orders of entries, for the statements on the store *)

Module Recency.

(** [a] is at least as recent as [b]: the timestamps compare as Python
    compares strings. *)
Definition not_older {payload : Type} (a b : entry payload) : Prop :=
  String.leb (entry_timestamp payload b) (entry_timestamp payload a) = true.

(** The [analyses] list of a user's file, empty when there is no file. *)
Definition stored {payload : Type} (dir : directory payload) (email : string)
  : list (entry payload) :=
  match dir !! _get_user_db_path email with
  | Some analyses => analyses
  | None => []
  end.

End Recency.
Export Recency.

(** ** Shapes of descriptors, for the statements on the engine *)

Module Metrics.

(** The entry under [key] is a float. *)
Definition float_metric (d : gmap string pyval) (key : string) : Prop :=
  ∃ f, d !! key = Some (PyFloat f).

(** The entry under [key] is there and is neither a float nor an int. *)
Definition non_numeric_metric (d : gmap string pyval) (key : string) : Prop :=
  ∃ v, d !! key = Some v ∧
       match v with PyFloat _ | PyInt _ => False | _ => True end.

(** A block appends nothing under the key [c]. *)
Definition silent_in (c : category) (d : gmap string pyval) (block : M unit) : Prop :=
  match advice_of block d with
  | Ok δ => messages c δ = []
  | Raise _ => True
  end.

End Metrics.
Export Metrics.

(** ** More sample inputs *)

Module MoreSamples.

(** A stand-in for a filter design that always raises, and one for the
    spectral centroid. *)
Definition failing_butter (order : nat) (low high : R) : result unit :=
  Raise (ValueError "Digital filter critical frequencies must be 0 < Wn < 1").

End MoreSamples.
Export MoreSamples.

(** ** The float32 kernels of the analyzer *)

(** [librosa.load] delivers float32 samples, and numpy's array kernels
    compute on them in float32: a square overflows to +inf from 2^64 on
    and underflows to 0 below 2^-75, which exact arithmetic cannot show.
    This module reads the same lines of [AudioAnalyzer] in binary32
    (precision 24, largest exponent 128), for the inputs on which the two
    readings part.  Where the source does not fix numpy's order of
    summation (the mean over a frame), the order of a contiguous array is
    taken; no statement below depends on it. *)
Module Binary32.

Definition float32 : Type := spec_float.
Definition float64 : Type := spec_float.

Definition prec32 : Z := 24.
Definition emax32 : Z := 128.
Definition prec64 : Z := 53.
Definition emax64 : Z := 1024.

Definition add32 : float32 → float32 → float32 := SFadd prec32 emax32.
Definition sub32 : float32 → float32 → float32 := SFsub prec32 emax32.
Definition mul32 : float32 → float32 → float32 := SFmul prec32 emax32.
Definition div32 : float32 → float32 → float32 := SFdiv prec32 emax32.
Definition sqrt32 : float32 → float32 := SFsqrt prec32 emax32.

(** The float32 nearest to an integer, and a power of two. *)
Definition of_int (z : Z) : float32 := binary_normalize prec32 emax32 z 0 false.
Definition power_of_two (e : Z) : float32 := binary_normalize prec32 emax32 1 e false.
Definition zero32 : float32 := S754_zero false.

Definition is_nan (x : spec_float) : bool :=
  match x with
  | S754_nan => true
  | _ => false
  end.

(** A float32 as a float64, which holds every float32 exactly. *)
Definition widen (x : float32) : float64 :=
  match x with
  | S754_finite s m e => binary_normalize prec64 emax64 (cond_Zopp s (Zpos m)) e s
  | _ => x
  end.

(** Elementwise operations on two arrays of one shape. *)
Fixpoint zip_with (f : float32 → float32 → float32) (a b : list float32) : list float32 :=
  match a, b with
  | x :: a', y :: b' => f x y :: zip_with f a' b'
  | _, _ => []
  end.

(** [a ** 2] (numpy squares by one multiplication) and [np.abs(a)]. *)
Definition np_square (a : list float32) : list float32 := map (fun x => mul32 x x) a.
Definition np_abs (a : list float32) : list float32 := map SFabs a.

(** numpy's pairwise summation of a contiguous array: fewer than eight
    elements are added in order; up to 128 elements go through eight
    running sums, combined as a tree, and the remainder is added in
    order; a longer array is split in two halves, the first a multiple
    of eight long. *)
Definition sum8 (r : list float32) : float32 :=
  match r with
  | [r0; r1; r2; r3; r4; r5; r6; r7] =>
      add32 (add32 (add32 r0 r1) (add32 r2 r3)) (add32 (add32 r4 r5) (add32 r6 r7))
  | _ => zero32
  end.

Fixpoint accumulate8 (r a : list float32) (rounds : nat) : list float32 * list float32 :=
  match rounds with
  | O => (r, a)
  | S k => accumulate8 (zip_with add32 r (firstn 8 a)) (skipn 8 a) k
  end.

Definition block_sum (a : list float32) : float32 :=
  let '(r, rest) := accumulate8 (firstn 8 a) (skipn 8 a) (length a / 8 - 1) in
  fold_left add32 rest (sum8 r).

Fixpoint pairwise_sum (depth : nat) (a : list float32) : float32 :=
  let n := length a in
  if (n <? 8)%nat then fold_left add32 a zero32
  else if (n <=? 128)%nat then block_sum a
  else
    match depth with
    | O => block_sum a
    | S d =>
        let n2 := (n / 2 - (n / 2) mod 8)%nat in
        add32 (pairwise_sum d (firstn n2 a)) (pairwise_sum d (skipn n2 a))
    end.

(** [np.sum(a)] of a one-dimensional float32 array: the identity 0 plus
    the pairwise sum (the depth given is never used up). *)
Definition np_sum (a : list float32) : float32 :=
  add32 zero32 (pairwise_sum (length a) a).

(** [np.mean(a)]: the float32 sum over the count. *)
Definition np_mean (a : list float32) : float32 :=
  div32 (np_sum a) (of_int (Z.of_nat (length a))).

(** [np.maximum(x, y)] keeps [x] when it is a nan or not below [y];
    [np.minimum] likewise. *)
Definition np_maximum (x y : spec_float) : spec_float :=
  if SFleb y x || is_nan x then x else y.

Definition np_minimum (x y : spec_float) : spec_float :=
  if SFleb x y || is_nan x then x else y.

(** [np.clip(x, lo, hi)] is [minimum(maximum(x, lo), hi)]: a nan stays. *)
Definition np_clip (x lo hi : spec_float) : spec_float :=
  np_minimum (np_maximum x lo) hi.

(** [np.max(a)]: refused on an empty array; a nan wins. *)
Definition np_max (a : list float32) : result float32 :=
  match a with
  | [] => Raise (ValueError zero_size_maximum)
  | x :: t =>
      Ok (fold_left (fun acc v => if is_nan acc then acc
                                  else if is_nan v then v
                                  else if SFltb acc v then v else acc) t x)
  end.

(** [np.mean(y, axis=0)] of an array with at least one row: the rows are
    added one after the other, and the sums divided by their number. *)
Definition np_mean_axis0 (y : list (list float32)) : list float32 :=
  map (fun i =>
         div32 (fold_left add32 (map (fun row => nth i row zero32) y) zero32)
               (of_int (Z.of_nat (length y))))
      (seq 0 (length (hd [] y))).

Definition np_pad (y : list float32) (w : nat) : list float32 :=
  repeat zero32 w ++ y ++ repeat zero32 w.

Definition util_frame (y : list float32) (frame_length hop_length : nat)
  : list (list float32) :=
  map (fun t => firstn frame_length (skipn (t * hop_length) y))
      (seq 0 (1 + (length y - frame_length) / hop_length)).

(** [librosa.feature.rms(y=y)[0]], as in the exact reading: each frame
    gives the float32 [sqrt(mean(abs(x)**2))]. *)
Definition librosa_feature_rms (y : list float32) (frame_length hop_length : nat)
  : list float32 :=
  map (fun x => sqrt32 (np_mean (np_square (np_abs x))))
      (util_frame (np_pad y (frame_length / 2)) frame_length hop_length).

(** *** Levels in decibels *)

(** The scalar arithmetic that follows the reductions ([+ 1e-10], the
    logarithm, the product by 20, the difference) is done in float32 or in
    float64 according to numpy's version; it is read here in the real
    numbers extended by the infinities and by nan, which is what the
    claims compare. *)
Inductive level :=
| Finite (r : R)
| PlusInfinity
| MinusInfinity
| NotANumber.

(** The real number a finite float stands for. *)
Definition value (x : spec_float) : R :=
  match x with
  | S754_finite s m e => (IZR (cond_Zopp s (Zpos m)) * powerRZ 2 e)%R
  | _ => 0%R
  end.

(** [20 * np.log10(x + 1e-10)] *)
Definition decibels (x : spec_float) : level :=
  match x with
  | S754_nan => NotANumber
  | S754_infinity false => PlusInfinity
  | S754_infinity true => NotANumber
  | _ =>
      let v := (value x + eps)%R in
      if Rlt_dec 0 v then Finite (20 * np_log10 v)
      else if Req_dec_T v 0 then MinusInfinity
      else NotANumber
  end.

(** [a - b] and [a <= b] on levels, as IEEE 754 has them. *)
Definition level_sub (a b : level) : level :=
  match a, b with
  | NotANumber, _ | _, NotANumber => NotANumber
  | Finite r, Finite s => Finite (r - s)
  | PlusInfinity, PlusInfinity | MinusInfinity, MinusInfinity => NotANumber
  | PlusInfinity, _ | _, MinusInfinity => PlusInfinity
  | MinusInfinity, _ | _, PlusInfinity => MinusInfinity
  end.

Definition level_le (a b : level) : Prop :=
  match a, b with
  | NotANumber, _ | _, NotANumber => False
  | Finite r, Finite s => (r <= s)%R
  | MinusInfinity, _ | _, PlusInfinity => True
  | _, _ => False
  end.

(** *** The analyzer *)

(** The levels of [analyze_2mix]: its statements up to [crest_factor]. *)
Record Levels := {
  rms_db : level;
  peak_db : level;
  crest_factor : level
}.

Definition analyze_2mix_levels (y : list (list float32)) : result Levels :=
  let mono := np_mean_axis0 y in
  let rms := librosa_feature_rms mono 2048 512 in
  let rms_db := decibels (np_mean rms) in
  peak ← np_max (np_abs mono);
  let peak_db := decibels peak in
  let crest_factor := level_sub peak_db rms_db in
  Ok {| rms_db := rms_db; peak_db := peak_db; crest_factor := crest_factor |}.

Definition hundred64 : float64 := binary_normalize prec64 emax64 100 0 false.

(** [ratio * 100] for a float32 scalar and a Python int: numpy 2 keeps
    float32; before it ([legacy]) the int made the product a float64. *)
Definition times_100 (legacy : bool) (ratio : float32) : float64 :=
  if legacy
  then SFmul prec64 emax64 (widen ratio) hundred64
  else widen (mul32 ratio (of_int 100)).

(** [calculate_stereo_width], and the [float(..)] that [analyze_2mix]
    applies to it. *)
Definition calculate_stereo_width (legacy : bool) (y : list (list float32)) : float64 :=
  if (length y <? 2)%nat then S754_zero false
  else
    let left := nth 0 y [] in
    let right := nth 1 y [] in
    let mid := map (fun x => div32 x (of_int 2)) (zip_with add32 left right) in
    let side := map (fun x => div32 x (of_int 2)) (zip_with sub32 left right) in
    let mid_energy := np_sum (np_square mid) in
    let side_energy := np_sum (np_square side) in
    if SFeqb (add32 mid_energy side_energy) zero32 then S754_zero false
    else
      let width := times_100 legacy (div32 side_energy (add32 mid_energy side_energy)) in
      np_clip width (S754_zero false) hundred64.

(** A width within [0, 100], as floats compare. *)
Definition within_0_100 (w : float64) : Prop :=
  SFleb (S754_zero false) w = true ∧ SFleb w hundred64 = true.

(** A buffer of two channels and two samples, the first sample of the
    left channel being 2^70: its square is beyond float32. *)
Definition loud_buffer : list (list float32) :=
  [[power_of_two 70; zero32]; [zero32; zero32]].

End Binary32.

(** ** Ranges of samples *)

Module Ranges.
Local Open Scope R_scope.

(** Samples within the nominal range of audio, [-1, 1]: what
    [librosa.load] decodes a PCM file to, and far from the overflow of a
    float32 square. *)
Definition nominal (audio : list R) : Prop := Forall (fun x => Rabs x <= 1) audio.

Definition nominal_range (self : AudioAnalyzer) : Prop := Forall nominal (self_y self).

(** A signal with a sample of magnitude 2^-60 or more: its float32 energy
    does not underflow to zero. *)
Definition audible (audio : list R) : Prop := Exists (fun x => / 2 ^ 60 <= Rabs x) audio.

End Ranges.
Export Ranges.

(** ** File names *)

Module FileNames.

(** A name that [open(.., 'w')] can create directly under [db_dir] on a
    POSIX file system: no "/" (the name would be a path through
    directories that do not exist, or an absolute path), no NUL, and at
    most 255 bytes. *)
Definition plain_file_name (name : string) : bool :=
  negb (contains "/"%char name) && negb (contains "000"%char name)
  && (String.length name <=? 255)%nat.

End FileNames.
Export FileNames.

(** * Properties of the recommendation engine *)

Section EngineFacts.

Implicit Types (d : gmap string pyval) (s : frame) (r : Recommendations).

Lemma merge_empty_l r : merge no_recommendations r = r.
Proof. by destruct r. Qed.

Lemma merge_empty_r r : merge r no_recommendations = r.
Proof. destruct r; unfold merge; simpl. by rewrite !app_nil_r. Qed.

Lemma merge_assoc r1 r2 r3 : merge (merge r1 r2) r3 = merge r1 (merge r2 r3).
Proof. unfold merge; simpl. by rewrite !app_assoc. Qed.

Lemma list_append_merge c msg r :
  list_append c msg r = merge r (list_append c msg no_recommendations).
Proof. destruct r, c; unfold merge; simpl; by rewrite ?app_nil_r. Qed.

Lemma count_list_append c msg : count (list_append c msg no_recommendations) = 1%nat.
Proof. by destruct c. Qed.

(** The steps of a block, one frame at a time. *)
Lemma bind_getitem {A} key (k : pyval → M A) s :
  (getitem_analysis_data key ≫= k) s =
  match analysis_data s !! key with
  | Some v => k v s
  | None => Raise (KeyError key)
  end.
Proof.
  unfold mbind, M_bind, getitem_analysis_data.
  by destruct (analysis_data s !! key).
Qed.

Lemma bind_eval {A B} (e : result A) (k : A → M B) s :
  (eval e ≫= k) s = match e with Ok a => k a s | Raise x => Raise x end.
Proof. unfold mbind, M_bind, eval. by destruct e. Qed.

Lemma advise_run c template v s :
  advise c template v s =
  match py_format_1f v with
  | Ok text => Ok (tt, {| analysis_data := analysis_data s;
                          metadata := metadata s;
                          recommendations :=
                            merge (recommendations s)
                                  (list_append c (template text) no_recommendations) |})
  | Raise x => Raise x
  end.
Proof.
  unfold advise. rewrite bind_eval. destruct (py_format_1f v); [|done].
  unfold append. by rewrite list_append_merge.
Qed.

Lemma skip_run s :
  (mret tt : M unit) s =
  Ok (tt, {| analysis_data := analysis_data s;
             metadata := metadata s;
             recommendations := merge (recommendations s) no_recommendations |}).
Proof. rewrite merge_empty_r. by destruct s. Qed.

(** Unfolds the steps of a block and splits on every test it makes. *)
Ltac block_steps :=
  repeat first
    [ rewrite bind_getitem
    | rewrite bind_eval
    | rewrite advise_run
    | rewrite skip_run
    | progress cbn [analysis_data metadata recommendations] ].

Ltac block_cases :=
  block_steps;
  repeat (match goal with
          | |- context [match ?x with _ => _ end] =>
              lazymatch x with
              | context [match _ with _ => _ end] => fail
              | _ => destruct x eqn:?
              end
          end; block_steps).

Lemma check_rms_emits : emits check_rms.
Proof. intros s. unfold advice_of, check_rms. block_cases; done. Qed.

Lemma check_peak_emits : emits check_peak.
Proof. intros s. unfold advice_of, check_peak. block_cases; done. Qed.

Lemma check_crest_factor_emits : emits check_crest_factor.
Proof. intros s. unfold advice_of, check_crest_factor. block_cases; done. Qed.

Lemma check_stereo_width_emits : emits check_stereo_width.
Proof. intros s. unfold advice_of, check_stereo_width. block_cases; done. Qed.

Lemma check_rms_reads_only : reads_only "rms_db" check_rms.
Proof.
  intros d1 d2 H. unfold advice_of, check_rms.
  rewrite !bind_getitem. cbn [analysis_data]. rewrite H.
  destruct (d2 !! "rms_db"); [|done]. block_cases; done.
Qed.

Lemma check_peak_reads_only : reads_only "peak_db" check_peak.
Proof.
  intros d1 d2 H. unfold advice_of, check_peak.
  rewrite !bind_getitem. cbn [analysis_data]. rewrite H.
  destruct (d2 !! "peak_db"); [|done]. block_cases; done.
Qed.

Lemma check_crest_factor_reads_only : reads_only "crest_factor" check_crest_factor.
Proof.
  intros d1 d2 H. unfold advice_of, check_crest_factor.
  rewrite !bind_getitem. cbn [analysis_data]. rewrite H.
  destruct (d2 !! "crest_factor"); [|done]. block_cases; done.
Qed.

Lemma check_stereo_width_reads_only : reads_only "stereo_width" check_stereo_width.
Proof.
  intros d1 d2 H. unfold advice_of, check_stereo_width.
  rewrite !bind_getitem. cbn [analysis_data]. rewrite H.
  destruct (d2 !! "stereo_width"); [|done]. block_cases; done.
Qed.

Lemma check_rms_at_most_one d : at_most_one d check_rms.
Proof.
  unfold at_most_one, advice_of, check_rms.
  block_cases; rewrite ?merge_empty_l, ?count_list_append; try done; unfold count; simpl; lia.
Qed.

Lemma check_peak_at_most_one d : at_most_one d check_peak.
Proof.
  unfold at_most_one, advice_of, check_peak.
  block_cases; rewrite ?merge_empty_l, ?count_list_append; try done; unfold count; simpl; lia.
Qed.

Lemma check_crest_factor_at_most_one d : at_most_one d check_crest_factor.
Proof.
  unfold at_most_one, advice_of, check_crest_factor.
  block_cases; rewrite ?merge_empty_l, ?count_list_append; try done; unfold count; simpl; lia.
Qed.

Lemma check_stereo_width_at_most_one d : at_most_one d check_stereo_width.
Proof.
  unfold at_most_one, advice_of, check_stereo_width.
  block_cases; rewrite ?merge_empty_l, ?count_list_append; try done; unfold count; simpl; lia.
Qed.

(** A block that emits, followed by the rest of the body. *)
Lemma bind_emits {A} (block : M unit) (k : unit → M A) s :
  emits block →
  (block ≫= k) s =
  match advice_of block (analysis_data s) with
  | Ok δ => k tt {| analysis_data := analysis_data s;
                    metadata := metadata s;
                    recommendations := merge (recommendations s) δ |}
  | Raise e => Raise e
  end.
Proof.
  intros H. unfold mbind, M_bind. rewrite (H s).
  by destruct (advice_of block (analysis_data s)).
Qed.

(** The body, from any frame: the local is assigned first, so what it held
    is lost; the advice of the four blocks is appended in source order;
    the arguments come back as they were. *)
Lemma body_run d m r0 :
  generate_recommendations_body
    {| analysis_data := d; metadata := m; recommendations := r0 |} =
  r1 ← advice_of check_rms d;
  r2 ← advice_of check_peak d;
  r3 ← advice_of check_crest_factor d;
  r4 ← advice_of check_stereo_width d;
  let r := merge (merge (merge r1 r2) r3) r4 in
  Ok (r, {| analysis_data := d; metadata := m; recommendations := r |}).
Proof.
  unfold generate_recommendations_body.
  unfold mbind at 1, M_bind at 1, assign_recommendations.
  cbn [analysis_data metadata recommendations].
  rewrite (bind_emits _ _ _ check_rms_emits). cbn [analysis_data metadata recommendations].
  destruct (advice_of check_rms d) as [r1|]; [|done].
  rewrite (bind_emits _ _ _ check_peak_emits). cbn [analysis_data metadata recommendations].
  destruct (advice_of check_peak d) as [r2|]; [|done].
  rewrite (bind_emits _ _ _ check_crest_factor_emits). cbn [analysis_data metadata recommendations].
  destruct (advice_of check_crest_factor d) as [r3|]; [|done].
  rewrite (bind_emits _ _ _ check_stereo_width_emits). cbn [analysis_data metadata recommendations].
  destruct (advice_of check_stereo_width d) as [r4|]; [|done].
  simpl. by rewrite merge_empty_l.
Qed.

Lemma generate_recommendations_unfold d m :
  generate_recommendations d m =
  r1 ← advice_of check_rms d;
  r2 ← advice_of check_peak d;
  r3 ← advice_of check_crest_factor d;
  r4 ← advice_of check_stereo_width d;
  Ok (merge (merge (merge r1 r2) r3) r4).
Proof.
  unfold generate_recommendations, call. rewrite body_run.
  destruct (advice_of check_rms d); [|done].
  destruct (advice_of check_peak d); [|done].
  destruct (advice_of check_crest_factor d); [|done].
  by destruct (advice_of check_stereo_width d).
Qed.

(** The advice is a function of the four metrics alone. *)
Lemma generate_recommendations_four_metrics d1 d2 m1 m2 :
  d1 !! "rms_db" = d2 !! "rms_db" →
  d1 !! "peak_db" = d2 !! "peak_db" →
  d1 !! "crest_factor" = d2 !! "crest_factor" →
  d1 !! "stereo_width" = d2 !! "stereo_width" →
  generate_recommendations d1 m1 = generate_recommendations d2 m2.
Proof.
  intros H1 H2 H3 H4. rewrite !generate_recommendations_unfold.
  by rewrite (check_rms_reads_only _ _ H1), (check_peak_reads_only _ _ H2),
    (check_crest_factor_reads_only _ _ H3), (check_stereo_width_reads_only _ _ H4).
Qed.

Lemma with_metrics_lookup rms peak cf width d :
  with_metrics rms peak cf width d !! "rms_db" = Some rms ∧
  with_metrics rms peak cf width d !! "peak_db" = Some peak ∧
  with_metrics rms peak cf width d !! "crest_factor" = Some cf ∧
  with_metrics rms peak cf width d !! "stereo_width" = Some width.
Proof. unfold with_metrics. repeat split; by simplify_map_eq. Qed.

Lemma generate_recommendations_with_metrics rms peak cf width d m :
  generate_recommendations (with_metrics rms peak cf width d) m =
  generate_recommendations (with_metrics rms peak cf width ∅) ∅.
Proof.
  destruct (with_metrics_lookup rms peak cf width d) as (H1 & H2 & H3 & H4).
  destruct (with_metrics_lookup rms peak cf width ∅) as (E1 & E2 & E3 & E4).
  apply generate_recommendations_four_metrics; congruence.
Qed.

(** The advice of a block on a dictionary in which its metric was just
    stored is its advice on that metric alone. *)
Lemma advice_of_insert key v d block :
  reads_only key block →
  advice_of block (<[key := v]> d) = advice_of block (<[key := v]> ∅).
Proof. intros H. apply H. by rewrite !lookup_insert_eq. Qed.

Lemma advice_of_insert_other key key' v d block :
  reads_only key block → key' ≠ key →
  advice_of block (<[key' := v]> d) = advice_of block d.
Proof. intros H Hne. apply H. by rewrite lookup_insert_ne. Qed.

Lemma advice_after_rms_insert v d :
  advice_after_rms (<["rms_db" := v]> d) = advice_after_rms d.
Proof.
  unfold advice_after_rms.
  by rewrite (advice_of_insert_other _ _ _ _ _ check_peak_reads_only),
    (advice_of_insert_other _ _ _ _ _ check_crest_factor_reads_only),
    (advice_of_insert_other _ _ _ _ _ check_stereo_width_reads_only).
Qed.

Lemma generate_recommendations_rms_first d m :
  generate_recommendations d m =
  r1 ← advice_of check_rms d; rest ← advice_after_rms d; Ok (merge r1 rest).
Proof.
  rewrite generate_recommendations_unfold. unfold advice_after_rms.
  destruct (advice_of check_rms d) as [r1|]; [|done].
  destruct (advice_of check_peak d) as [r2|]; [|done].
  destruct (advice_of check_crest_factor d) as [r3|]; [|done].
  destruct (advice_of check_stereo_width d) as [r4|]; [|done].
  simpl. by rewrite !merge_assoc.
Qed.

(** C3. Scenario C: on a descriptor with rms_db = -25, peak_db = -3,
    crest_factor = 6 and stereo_width = 20 (whatever its other entries, and
    whatever the metadata), [generate_recommendations] returns exactly one
    critical message, the one for a low rms; exactly two important
    messages, low crest factor then narrow stereo width; no good point; and
    the peak block contributes no message at all. *)
Theorem scenario_c_advice (d m : gmap string pyval) :
  generate_recommendations
    (with_metrics (PyFloat (-25)) (PyFloat (-3)) (PyFloat 6) (PyFloat 20) d) m =
  Ok {| rec_critical := [msg_rms_low "-25.0"];
        rec_important := [msg_cf_low "6.0"; msg_width_narrow "20.0"];
        rec_good_points := [] |} ∧
  advice_of check_peak
    (with_metrics (PyFloat (-25)) (PyFloat (-3)) (PyFloat 6) (PyFloat 20) d) =
  Ok no_recommendations.
Proof.
  split.
  - rewrite generate_recommendations_with_metrics. vm_compute. reflexivity.
  - destruct (with_metrics_lookup (PyFloat (-25)) (PyFloat (-3)) (PyFloat 6) (PyFloat 20) d)
      as (_ & H2 & _).
    rewrite (check_peak_reads_only _ (<["peak_db" := PyFloat (-3)]> ∅)).
    + vm_compute. reflexivity.
    + by rewrite H2, lookup_insert_eq.
Qed.

(** C4. The good band of rms_db is closed at both ends, and there is a gap
    below it: with rms_db = -20 or rms_db = -16 the rms block appends one
    good point (and nothing else), so the result is that good point ahead
    of the advice on the other three metrics; with rms_db = -22 the rms
    block appends nothing to any list, and the result is exactly the
    advice on the other three metrics. *)
Theorem rms_good_band_and_gap (d m : gmap string pyval) :
  (advice_of check_rms (<["rms_db" := PyFloat (-20)]> d) =
     Ok (list_append good_points (msg_rms_good "-20.0") no_recommendations) ∧
   generate_recommendations (<["rms_db" := PyFloat (-20)]> d) m =
     rest ← advice_after_rms d;
     Ok (merge (list_append good_points (msg_rms_good "-20.0") no_recommendations) rest)) ∧
  (advice_of check_rms (<["rms_db" := PyFloat (-16)]> d) =
     Ok (list_append good_points (msg_rms_good "-16.0") no_recommendations) ∧
   generate_recommendations (<["rms_db" := PyFloat (-16)]> d) m =
     rest ← advice_after_rms d;
     Ok (merge (list_append good_points (msg_rms_good "-16.0") no_recommendations) rest)) ∧
  (advice_of check_rms (<["rms_db" := PyFloat (-22)]> d) = Ok no_recommendations ∧
   generate_recommendations (<["rms_db" := PyFloat (-22)]> d) m = advice_after_rms d).
Proof.
  assert (H20 : advice_of check_rms (<["rms_db" := PyFloat (-20)]> d) =
                Ok (list_append good_points (msg_rms_good "-20.0") no_recommendations)).
  { rewrite (advice_of_insert _ _ _ _ check_rms_reads_only). vm_compute. reflexivity. }
  assert (H16 : advice_of check_rms (<["rms_db" := PyFloat (-16)]> d) =
                Ok (list_append good_points (msg_rms_good "-16.0") no_recommendations)).
  { rewrite (advice_of_insert _ _ _ _ check_rms_reads_only). vm_compute. reflexivity. }
  assert (H22 : advice_of check_rms (<["rms_db" := PyFloat (-22)]> d) = Ok no_recommendations).
  { rewrite (advice_of_insert _ _ _ _ check_rms_reads_only). vm_compute. reflexivity. }
  repeat split; try assumption.
  - by rewrite generate_recommendations_rms_first, H20, advice_after_rms_insert.
  - by rewrite generate_recommendations_rms_first, H16, advice_after_rms_insert.
  - rewrite generate_recommendations_rms_first, H22, advice_after_rms_insert.
    simpl. destruct (advice_after_rms d) as [rest|]; [|done].
    simpl. by rewrite merge_empty_l.
Qed.

(** C8. [generate_recommendations] is a function of its arguments and leaves
    them as they were: (1) whatever the local [recommendations] held when
    the body starts, the body returns what the call returns; (2) when the
    call returns, the two argument dictionaries in the frame are the ones
    passed in, and the value returned is the local; (3) the result is the
    advice of the rms, peak, crest-factor and stereo-width blocks, each run
    on its own, put side by side in that order, so that each of the three
    lists holds its messages in that metric order (and an exception of a
    block is the exception of the call); (4) each block gives at most one
    message. *)
Theorem generate_recommendations_pure_ordered (d m : gmap string pyval) :
  (∀ r0, fst <$> generate_recommendations_body
                   {| analysis_data := d; metadata := m; recommendations := r0 |}
         = generate_recommendations d m) ∧
  match call d m with
  | Ok (r, s) => analysis_data s = d ∧ metadata s = m ∧ recommendations s = r
  | Raise _ => True
  end ∧
  generate_recommendations d m =
    (r1 ← advice_of check_rms d;
     r2 ← advice_of check_peak d;
     r3 ← advice_of check_crest_factor d;
     r4 ← advice_of check_stereo_width d;
     Ok {| rec_critical :=
             rec_critical r1 ++ rec_critical r2 ++ rec_critical r3 ++ rec_critical r4;
           rec_important :=
             rec_important r1 ++ rec_important r2 ++ rec_important r3 ++ rec_important r4;
           rec_good_points :=
             rec_good_points r1 ++ rec_good_points r2 ++ rec_good_points r3
               ++ rec_good_points r4 |}) ∧
  Forall (at_most_one d)
         [check_rms; check_peak; check_crest_factor; check_stereo_width].
Proof.
  split; [|split; [|split]].
  - intros r0. unfold generate_recommendations, call. by rewrite !body_run.
  - unfold call. rewrite body_run.
    destruct (advice_of check_rms d); [|done].
    destruct (advice_of check_peak d); [|done].
    destruct (advice_of check_crest_factor d); [|done].
    by destruct (advice_of check_stereo_width d).
  - rewrite generate_recommendations_unfold.
    destruct (advice_of check_rms d); [|done].
    destruct (advice_of check_peak d); [|done].
    destruct (advice_of check_crest_factor d); [|done].
    destruct (advice_of check_stereo_width d); [|done].
    simpl. unfold merge. simpl. by rewrite <- !app_assoc.
  - repeat constructor.
    + apply check_rms_at_most_one.
    + apply check_peak_at_most_one.
    + apply check_crest_factor_at_most_one.
    + apply check_stereo_width_at_most_one.
Qed.

(** C9. The result of [generate_recommendations] depends on the entries
    rms_db, peak_db, crest_factor and stereo_width of [analysis_data] only:
    two calls whose first arguments agree on these four keys (present with
    the same value, or absent in both) return the same result or raise the
    same exception, whatever their other entries and whatever the two
    metadata arguments. *)
Theorem generate_recommendations_reads_four_metrics (d1 d2 m1 m2 : gmap string pyval) :
  d1 !! "rms_db" = d2 !! "rms_db" →
  d1 !! "peak_db" = d2 !! "peak_db" →
  d1 !! "crest_factor" = d2 !! "crest_factor" →
  d1 !! "stereo_width" = d2 !! "stereo_width" →
  generate_recommendations d1 m1 = generate_recommendations d2 m2.
Proof. apply generate_recommendations_four_metrics. Qed.

(** Witness of C9's theorem: a full descriptor with metadata, and the four
    metrics alone without metadata. *)
Lemma generate_recommendations_full_bare :
  generate_recommendations descriptor_full metadata_club
  = generate_recommendations descriptor_bare ∅.
Proof.
  apply (generate_recommendations_reads_four_metrics
           descriptor_full descriptor_bare metadata_club ∅);
    vm_compute; reflexivity.
Defined.

End EngineFacts.

(** * Properties of the analyzer *)

Section AnalyzerFacts.

Local Open Scope R_scope.

Lemma np_clip_range x : 0 <= np_clip x 0 100 <= 100.
Proof.
  unfold np_clip. split.
  - apply Rmin_glb; [apply Rmax_r | lra].
  - apply Rmin_r.
Qed.

Lemma np_clip_zero : np_clip 0 0 100 = 0.
Proof.
  unfold np_clip. rewrite Rmax_left by lra. apply Rmin_left. lra.
Qed.

Lemma np_sum_zeros (a : list R) : Forall (fun x => x = 0) a → np_sum a = 0.
Proof.
  induction 1 as [|x a Hx _ IH]; simpl; [done|]. rewrite Hx, IH. lra.
Qed.

Lemma np_square_zeros (a : list R) :
  Forall (fun x => x = 0) a → Forall (fun x => x = 0) (np_square a).
Proof.
  unfold np_square. induction 1 as [|x a Hx _ IH]; simpl; constructor; [|done].
  rewrite Hx. lra.
Qed.

Lemma map2_minus_diag (a : list R) : Forall (fun x => x = 0) (map2 Rminus a a).
Proof. induction a as [|x a IH]; simpl; constructor; [lra|done]. Qed.

Lemma halve_zeros (a : list R) :
  Forall (fun x => x = 0) a → Forall (fun x => x = 0) (map (fun x => x / 2) a).
Proof.
  induction 1 as [|x a Hx _ IH]; simpl; constructor; [|done]. rewrite Hx. lra.
Qed.

Lemma side_energy_diag (a : list R) : side_energy a a = 0.
Proof.
  unfold side_energy. apply np_sum_zeros, np_square_zeros, halve_zeros, map2_minus_diag.
Qed.

Lemma stereo_width_range self : 0 <= calculate_stereo_width self <= 100.
Proof.
  unfold calculate_stereo_width.
  destruct (length (self_y self) <? 2)%nat; [lra|].
  cbv zeta. destruct (Req_dec_T _ 0); [lra|]. apply np_clip_range.
Qed.

Lemma stereo_width_identical self :
  nth 0 (self_y self) [] = nth 1 (self_y self) [] → calculate_stereo_width self = 0.
Proof.
  intros H. unfold calculate_stereo_width.
  destruct (length (self_y self) <? 2)%nat; [done|].
  cbv zeta. destruct (Req_dec_T _ 0); [done|].
  rewrite <- H, side_energy_diag.
  replace (0 / _ * 100) with 0 by (unfold Rdiv; lra).
  apply np_clip_zero.
Qed.

Lemma hundred64_value : Binary32.hundred64 = S754_finite false 7036874417766400 (-46).
Proof. vm_compute. reflexivity. Qed.

Lemma binary32_zero_in_range : Binary32.within_0_100 (S754_zero false).
Proof. unfold Binary32.within_0_100. rewrite hundred64_value. by split. Qed.

Lemma binary32_clip_range (w : Binary32.float64) :
  Binary32.within_0_100 (Binary32.np_clip w (S754_zero false) Binary32.hundred64) ∨
  Binary32.np_clip w (S754_zero false) Binary32.hundred64 = S754_nan.
Proof.
  unfold Binary32.within_0_100, Binary32.np_clip.
  destruct w as [s|s| |s m e].
  - left. destruct s; vm_compute; by split.
  - left. destruct s; vm_compute; by split.
  - right. reflexivity.
  - left. destruct s.
    + rewrite hundred64_value. cbn. by split.
    + unfold Binary32.np_maximum.
      change (SFleb (S754_zero false) (S754_finite false m e)) with true.
      cbn [orb]. unfold Binary32.np_minimum.
      destruct (SFleb (S754_finite false m e) Binary32.hundred64) eqn:Hle;
        cbn [orb Binary32.is_nan].
      * by split.
      * rewrite hundred64_value. cbn. by split.
Qed.

(** C6, as the code has it.  The stereo width lies in [0, 100] for every
    buffer whose samples are within the nominal range [-1, 1]; for every
    buffer it is 0 when the first two channels are sample for sample
    identical, when there are fewer than two channels, and when the mid
    and side energies add up to zero.  Beyond that range the float32
    energies can overflow, and the width is then nan (see
    [calculate_stereo_width_overflow]): in float32, on every buffer, the
    width is within [0, 100] or it is nan. *)
Theorem calculate_stereo_width_bounds (self : AudioAnalyzer) :
  (nominal_range self → 0 <= calculate_stereo_width self <= 100) ∧
  (nth 0 (self_y self) [] = nth 1 (self_y self) [] → calculate_stereo_width self = 0) ∧
  ((length (self_y self) < 2)%nat → calculate_stereo_width self = 0) ∧
  (mid_energy (nth 0 (self_y self) []) (nth 1 (self_y self) []) +
   side_energy (nth 0 (self_y self) []) (nth 1 (self_y self) []) = 0 →
   calculate_stereo_width self = 0) ∧
  (∀ (legacy : bool) (y : list (list Binary32.float32)),
     Binary32.within_0_100 (Binary32.calculate_stereo_width legacy y) ∨
     Binary32.calculate_stereo_width legacy y = S754_nan).
Proof.
  split; [intros _; apply stereo_width_range|].
  split; [apply stereo_width_identical|].
  split; [|split].
  - intros H. unfold calculate_stereo_width.
    by destruct (Nat.ltb_spec (length (self_y self)) 2); [|lia].
  - intros H. unfold calculate_stereo_width.
    destruct (length (self_y self) <? 2)%nat; [done|].
    cbv zeta. by destruct (Req_dec_T _ 0).
  - intros legacy y. unfold Binary32.calculate_stereo_width.
    destruct (length y <? 2)%nat; [left; apply binary32_zero_in_range|].
    cbv zeta. destruct (SFeqb _ _); [left; apply binary32_zero_in_range|].
    apply binary32_clip_range.
Qed.

(** C10. A one-dimensional result of [librosa.load] is stacked on itself by
    [load_audio]: the buffer has two identical channels, the test
    [shape[0] < 2] of [calculate_stereo_width] is false, and the width is
    exactly 0.  More generally the test is false on every buffer that
    [load_audio] builds from a result of [librosa.load]. *)
Theorem load_audio_mono_width (samples : list R) (rate : R) :
  self_y (load_audio (Array1 samples) rate) = [samples; samples] ∧
  (length (self_y (load_audio (Array1 samples) rate)) <? 2)%nat = false ∧
  calculate_stereo_width (load_audio (Array1 samples) rate) = 0 ∧
  (∀ loaded, librosa_load_shape loaded →
             (length (self_y (load_audio loaded rate)) <? 2)%nat = false).
Proof.
  split; [done|]. split; [done|]. split.
  - by apply stereo_width_identical.
  - intros [s|rows] H; [done|]. simpl in *. by apply Nat.ltb_ge.
Qed.

Lemma times_zero_zeros (audio : list R) : times_zero audio = repeat 0 (length audio).
Proof.
  unfold times_zero. induction audio as [|x a IH]; simpl; [done|].
  rewrite IH. f_equal. lra.
Qed.

Lemma py_truediv_ok (a b : R) : b ≠ 0 → py_truediv a b = Ok (a / b).
Proof. intros H. unfold py_truediv. by destruct (Req_dec_T b 0). Qed.

Section BandFilter.

Variable sos : Type.
Variable signal_butter : nat → R → R → result sos.
Variable signal_sosfilt : sos → list R → result (list R).

(** The body of [bandpass_filter] once the two divisions are done. *)
Lemma bandpass_filter_unfold self audio low high :
  self_sr self ≠ 0 →
  bandpass_filter sos signal_butter signal_sosfilt self audio low high =
  let low_norm := np_clip (low / (self_sr self / 2)) 0.001 0.999 in
  let high_norm := np_clip (high / (self_sr self / 2)) 0.001 0.999 in
  if Rge_dec low_norm high_norm then Ok (times_zero audio)
  else
    match design ← signal_butter 4%nat low_norm high_norm; signal_sosfilt design audio with
    | Ok filtered => Ok filtered
    | Raise _ => Ok (times_zero audio)
    end.
Proof.
  intros Hsr. unfold bandpass_filter. cbv zeta.
  rewrite !py_truediv_ok by lra. reflexivity.
Qed.

Lemma bandpass_filter_returns self audio low high :
  self_sr self ≠ 0 →
  ∃ out, bandpass_filter sos signal_butter signal_sosfilt self audio low high = Ok out.
Proof.
  intros Hsr. rewrite bandpass_filter_unfold by done. cbv zeta.
  destruct (Rge_dec _ _); [by eexists|].
  destruct (_ ≫= _); by eexists.
Qed.

(** C2. At a rate other than 0, [bandpass_filter] never raises.  With
    [low_norm] and [high_norm] the two frequencies over the Nyquist
    frequency, each clipped to [0.001, 0.999]: when [low_norm >= high_norm]
    it returns zeros, as many as the input has samples; and when the filter
    design or the filtering raises, whatever the exception, it returns the
    same zeros instead. *)
Theorem bandpass_filter_fail_soft self audio low high :
  self_sr self ≠ 0 →
  let low_norm := np_clip (low / (self_sr self / 2)) 0.001 0.999 in
  let high_norm := np_clip (high / (self_sr self / 2)) 0.001 0.999 in
  (low_norm >= high_norm →
   bandpass_filter sos signal_butter signal_sosfilt self audio low high
   = Ok (repeat 0 (length audio))) ∧
  (∀ e, (design ← signal_butter 4%nat low_norm high_norm; signal_sosfilt design audio)
        = Raise e →
        bandpass_filter sos signal_butter signal_sosfilt self audio low high
        = Ok (repeat 0 (length audio))) ∧
  (∃ out, bandpass_filter sos signal_butter signal_sosfilt self audio low high = Ok out).
Proof.
  intros Hsr low_norm high_norm.
  split; [|split].
  - intros Hge. rewrite bandpass_filter_unfold by done. cbv zeta.
    fold low_norm high_norm.
    destruct (Rge_dec low_norm high_norm); [|done]. by rewrite times_zero_zeros.
  - intros e He. rewrite bandpass_filter_unfold by done. cbv zeta.
    fold low_norm high_norm. rewrite He, times_zero_zeros.
    by destruct (Rge_dec low_norm high_norm).
  - by apply bandpass_filter_returns.
Qed.

End BandFilter.

(** *** Reductions *)

Lemma fold_left_Rmax_ge (t : list R) (x : R) :
  x <= fold_left Rmax t x ∧ Forall (fun y => y <= fold_left Rmax t x) t.
Proof.
  revert x. induction t as [|y t IH]; intros x; simpl.
  - split; [lra | constructor].
  - destruct (IH (Rmax x y)) as [H1 H2]. split.
    + eapply Rle_trans; [apply Rmax_l | exact H1].
    + constructor; [|done]. eapply Rle_trans; [apply Rmax_r | exact H1].
Qed.

Lemma fold_left_Rmax_in (t : list R) (x : R) :
  fold_left Rmax t x = x ∨ In (fold_left Rmax t x) t.
Proof.
  revert x. induction t as [|y t IH]; intros x; simpl; [by left|].
  destruct (IH (Rmax x y)) as [H|H]; [|by right; right].
  rewrite H. unfold Rmax. destruct (Rle_dec x y); [right; by left | by left].
Qed.

Lemma np_max_spec (a : list R) :
  a ≠ [] → ∃ M, np_max a = Ok M ∧ Forall (fun x => x <= M) a ∧ In M a.
Proof.
  destruct a as [|x t]; [done|]. intros _. exists (fold_left Rmax t x).
  destruct (fold_left_Rmax_ge t x) as [H1 H2].
  split; [done|]. split; [by constructor|].
  destruct (fold_left_Rmax_in t x) as [H|H]; [rewrite H; by left | by right].
Qed.

Lemma np_sum_le (a : list R) (B : R) :
  Forall (fun x => x <= B) a → np_sum a <= INR (length a) * B.
Proof.
  induction 1 as [|x a Hx _ IH]; [simpl; lra|].
  change (length (x :: a)) with (S (length a)). rewrite S_INR. simpl. lra.
Qed.

Lemma np_sum_nonneg (a : list R) : Forall (fun x => 0 <= x) a → 0 <= np_sum a.
Proof. induction 1 as [|x a Hx _ IH]; simpl; lra. Qed.

Lemma np_mean_le (a : list R) (B : R) :
  0 <= B → Forall (fun x => x <= B) a → np_mean a <= B.
Proof.
  intros HB Ha. unfold np_mean. destruct a as [|x t].
  - simpl. unfold Rdiv. rewrite Rinv_0. lra.
  - assert (Hn : 0 < INR (length (x :: t))) by (apply lt_0_INR; simpl; lia).
    apply np_sum_le in Ha.
    apply Rmult_le_reg_r with (INR (length (x :: t))); [done|].
    unfold Rdiv. rewrite Rmult_assoc, Rinv_l by lra. lra.
Qed.

Lemma np_mean_nonneg (a : list R) : Forall (fun x => 0 <= x) a → 0 <= np_mean a.
Proof.
  intros Ha. unfold np_mean. apply np_sum_nonneg in Ha.
  unfold Rdiv. apply Rmult_le_pos; [done|].
  destruct a as [|x t]; [simpl; rewrite Rinv_0; lra|].
  left. apply Rinv_0_lt_compat, lt_0_INR. simpl. lia.
Qed.

Lemma np_log10_le (a b : R) : 0 < a → a <= b → np_log10 a <= np_log10 b.
Proof.
  intros Ha Hab. unfold np_log10.
  assert (H10 : 0 < ln 10).
  { rewrite <- ln_1. apply ln_increasing; lra. }
  assert (Hln : ln a <= ln b).
  { destruct Hab as [Hlt|Heq]; [left; by apply ln_increasing | rewrite Heq; lra]. }
  unfold Rdiv. apply Rmult_le_compat_r; [|done].
  left. by apply Rinv_0_lt_compat.
Qed.

Lemma eps_pos : 0 < eps.
Proof. unfold eps. lra. Qed.

(** *** Framewise RMS *)

Lemma repeat_Forall (P : R → Prop) (x : R) (n : nat) : P x → Forall P (repeat x n).
Proof. intros H. induction n; simpl; by constructor. Qed.

Lemma np_pad_Forall (P : R → Prop) (y : list R) (w : nat) :
  P 0 → Forall P y → Forall P (np_pad y w).
Proof.
  intros H0 Hy. unfold np_pad.
  apply Forall_app; split; [by apply repeat_Forall|].
  apply Forall_app; split; [done | by apply repeat_Forall].
Qed.

Lemma util_frame_Forall (P : R → Prop) (y : list R) (frame_length hop_length : nat) :
  Forall P y → Forall (Forall P) (util_frame y frame_length hop_length).
Proof.
  intros Hy. unfold util_frame. apply Forall_map, Forall_forall. intros t _.
  by apply Forall_take, Forall_drop.
Qed.

Lemma util_frame_length (y : list R) (frame_length hop_length : nat) :
  length (util_frame y frame_length hop_length)
  = (1 + (length y - frame_length) / hop_length)%nat.
Proof. unfold util_frame. by rewrite length_map, length_seq. Qed.

Lemma frame_rms_bounds (x : list R) (M : R) :
  0 <= M → Forall (fun v => Rabs v <= M) x →
  0 <= sqrt (np_mean (np_square (np_abs x))) <= M.
Proof.
  intros HM Hx. split; [apply sqrt_pos|].
  rewrite <- (sqrt_pow2 M) by done. apply sqrt_le_1_alt.
  apply np_mean_le; [apply pow2_ge_0|].
  unfold np_square, np_abs. rewrite map_map. apply Forall_map.
  eapply Forall_impl; [exact Hx|]. intros v Hv. cbv beta.
  apply pow_incr. split; [apply Rabs_pos | done].
Qed.

Lemma librosa_feature_rms_bounds (y : list R) (frame_length hop_length : nat) (M : R) :
  0 <= M → Forall (fun v => Rabs v <= M) y →
  Forall (fun v => 0 <= v <= M) (librosa_feature_rms y frame_length hop_length).
Proof.
  intros HM Hy. unfold librosa_feature_rms. apply Forall_map.
  eapply Forall_impl.
  - apply util_frame_Forall, np_pad_Forall; [|exact Hy]. simpl. by rewrite Rabs_R0.
  - intros x Hx. by apply frame_rms_bounds.
Qed.

Lemma librosa_feature_rms_length (y : list R) (frame_length hop_length : nat) :
  length (librosa_feature_rms y frame_length hop_length)
  = (1 + (length (np_pad y (frame_length / 2)) - frame_length) / hop_length)%nat.
Proof. unfold librosa_feature_rms. by rewrite length_map, util_frame_length. Qed.

Lemma np_mean_axis0_length (y : list (list R)) :
  length (np_mean_axis0 y) = length (hd [] y).
Proof. unfold np_mean_axis0. by rewrite length_map, length_seq. Qed.

Lemma np_pad_length (y : list R) (w : nat) :
  length (np_pad y w) = (w + length y + w)%nat.
Proof. unfold np_pad. rewrite !length_app, !repeat_length. lia. Qed.

(** *** Silence *)

Lemma zeros_abs_le (y : list R) :
  Forall (fun x => x = 0) y → Forall (fun v => Rabs v <= 0) y.
Proof.
  intros H. eapply Forall_impl; [exact H|]. intros v ->. rewrite Rabs_R0. lra.
Qed.

Lemma librosa_feature_rms_zeros (y : list R) (frame_length hop_length : nat) :
  Forall (fun x => x = 0) y →
  Forall (fun x => x = 0) (librosa_feature_rms y frame_length hop_length).
Proof.
  intros H. eapply Forall_impl.
  - apply (librosa_feature_rms_bounds y frame_length hop_length 0); [lra|].
    by apply zeros_abs_le.
  - intros v Hv. simpl in Hv. lra.
Qed.

Lemma np_mean_zeros (a : list R) : Forall (fun x => x = 0) a → np_mean a = 0.
Proof. intros H. unfold np_mean. rewrite (np_sum_zeros a H). unfold Rdiv. lra. Qed.

Lemma nth_zeros (row : list R) (i : nat) : Forall (fun x => x = 0) row → nth i row 0 = 0.
Proof.
  intros H. revert i. induction H as [|x row Hx _ IH]; intros [|i]; simpl; auto.
Qed.

Lemma np_mean_axis0_zeros (y : list (list R)) :
  Forall (Forall (fun x => x = 0)) y → Forall (fun x => x = 0) (np_mean_axis0 y).
Proof.
  intros H. unfold np_mean_axis0. apply Forall_map, Forall_forall. intros i _.
  apply np_mean_zeros. unfold column. apply Forall_map.
  eapply Forall_impl; [exact H|]. intros row Hrow. by apply nth_zeros.
Qed.

Lemma np_abs_zeros (a : list R) :
  Forall (fun x => x = 0) a → Forall (fun x => x = 0) (np_abs a).
Proof.
  intros H. unfold np_abs. apply Forall_map.
  eapply Forall_impl; [exact H|]. intros v ->. apply Rabs_R0.
Qed.

Lemma np_max_zeros (a : list R) :
  a ≠ [] → Forall (fun x => x = 0) a → np_max a = Ok 0.
Proof.
  intros Hne H. destruct (np_max_spec a Hne) as (M & HM & _ & Hin).
  rewrite HM. f_equal. rewrite List.Forall_forall in H. by apply H.
Qed.

(** *** Percentiles of a constant array *)

Lemma insert_sorted_Forall (P : R → Prop) (x : R) (l : list R) :
  P x → Forall P l → Forall P (insert_sorted x l).
Proof.
  intros Hx. induction 1 as [|y l Hy Hl IH]; simpl; [by repeat constructor|].
  destruct (Rle_dec x y); by repeat constructor.
Qed.

Lemma insert_sorted_length (x : R) (l : list R) :
  length (insert_sorted x l) = S (length l).
Proof.
  induction l as [|y l IH]; simpl; [done|].
  destruct (Rle_dec x y); simpl; by rewrite ?IH.
Qed.

Lemma np_sort_Forall (P : R → Prop) (a : list R) : Forall P a → Forall P (np_sort a).
Proof.
  unfold np_sort. induction 1 as [|x a Hx _ IH]; simpl; [done|].
  by apply insert_sorted_Forall.
Qed.

Lemma np_sort_length (a : list R) : length (np_sort a) = length a.
Proof.
  unfold np_sort. induction a as [|x a IH]; simpl; [done|].
  by rewrite insert_sorted_length, IH.
Qed.

Lemma nth_constant (c : R) (l : list R) (i : nat) :
  Forall (fun x => x = c) l → (i < length l)%nat → nth i l 0 = c.
Proof.
  intros H. revert i. induction H as [|x l Hx _ IH]; intros [|i] Hi; simpl in *;
    [lia | lia | done | apply IH; lia].
Qed.

Lemma np_percentile_constant (a : list R) (c : R) (q : nat) :
  (q ≤ 100)%nat → a ≠ [] → Forall (fun x => x = c) a → np_percentile a q = c.
Proof.
  intros Hq Hne Ha. unfold np_percentile. cbv zeta.
  assert (Hn : (1 ≤ length a)%nat) by (destruct a; [done | simpl; lia]).
  assert (Hbelow : (q * (length a - 1) / 100 ≤ length a - 1)%nat).
  { apply Nat.Div0.div_le_upper_bound. nia. }
  rewrite !(nth_constant c).
  - lra.
  - by apply np_sort_Forall.
  - rewrite np_sort_length. lia.
  - by apply np_sort_Forall.
  - rewrite np_sort_length. lia.
Qed.

Lemma np_log10_eps : 20 * np_log10 eps = -200.
Proof.
  unfold np_log10, eps.
  replace 1e-10 with (/ 10 ^ 10) by lra.
  assert (H10 : 0 < ln 10) by (rewrite <- ln_1; apply ln_increasing; lra).
  rewrite ln_Rinv by (apply pow_lt; lra).
  rewrite ln_pow by lra.
  replace (INR 10) with 10 by (simpl; lra).
  field. lra.
Qed.

(** *** The extractor *)

Section Extractor.

Variable sos : Type.
Variable signal_butter : nat → R → R → result sos.
Variable signal_sosfilt : sos → list R → result (list R).

Lemma calculate_band_energies_returns self audio :
  self_sr self ≠ 0 →
  ∃ energies,
    calculate_band_energies sos signal_butter signal_sosfilt self audio = Ok energies.
Proof.
  intros Hsr. unfold calculate_band_energies.
  induction bands as [|[name [low high]] rest IH]; simpl; [by eexists|].
  destruct (bandpass_filter_returns sos signal_butter signal_sosfilt self audio low high Hsr)
    as [out ->].
  simpl. destruct IH as [energies ->]. simpl. by eexists.
Qed.

(** What [analyze_2mix] returns once the peak is known. *)
Lemma analyze_2mix_returns self peak :
  self_sr self ≠ 0 →
  np_max (np_abs (np_mean_axis0 (self_y self))) = Ok peak →
  ∃ desc,
    analyze_2mix sos signal_butter signal_sosfilt self = Ok desc ∧
    rms_db desc =
      20 * np_log10 (np_mean (librosa_feature_rms (np_mean_axis0 (self_y self)) 2048 512) + eps) ∧
    peak_db desc = 20 * np_log10 (peak + eps) ∧
    crest_factor desc = peak_db desc - rms_db desc ∧
    stereo_width desc = calculate_stereo_width self ∧
    dynamic_range desc = calculate_dynamic_range (np_mean_axis0 (self_y self)).
Proof.
  intros Hsr Hpeak. unfold analyze_2mix. cbv zeta. rewrite Hpeak. simpl.
  destruct (calculate_band_energies_returns self (np_mean_axis0 (self_y self)) Hsr)
    as [energies ->].
  simpl. eexists. split; [reflexivity|]. simpl. repeat split.
Qed.

Lemma valid_buffer_mono self :
  valid_buffer self → np_abs (np_mean_axis0 (self_y self)) ≠ [].
Proof.
  intros (_ & Hn & _ & _) Hnil. apply (f_equal (@length R)) in Hnil.
  unfold np_abs in Hnil. rewrite length_map, np_mean_axis0_length in Hnil.
  unfold n_samples in Hn. simpl in Hnil. lia.
Qed.

(** C5, as the code has it.  On a valid buffer whose samples are within
    the nominal range [-1, 1], [analyze_2mix] returns a descriptor whose
    rms_db is 20 log10 of the mean framewise RMS of the mono downmix plus
    1e-10, whose peak_db is 20 log10 of the largest absolute mono sample
    plus 1e-10, and rms_db is at most peak_db.  (Beyond that range the
    float32 squares of the framewise RMS can overflow: see
    [analyze_2mix_levels_loud].) *)
Theorem analyze_2mix_rms_le_peak (self : AudioAnalyzer) :
  valid_buffer self →
  nominal_range self →
  ∃ desc peak,
    analyze_2mix sos signal_butter signal_sosfilt self = Ok desc ∧
    np_max (np_abs (np_mean_axis0 (self_y self))) = Ok peak ∧
    rms_db desc =
      20 * np_log10 (np_mean (librosa_feature_rms (np_mean_axis0 (self_y self)) 2048 512) + eps) ∧
    peak_db desc = 20 * np_log10 (peak + eps) ∧
    rms_db desc <= peak_db desc.
Proof.
  intros Hvalid _.
  destruct (np_max_spec _ (valid_buffer_mono self Hvalid)) as (peak & Hpeak & Hle & Hin).
  assert (Hsr : self_sr self ≠ 0) by (destruct Hvalid as (_ & _ & _ & ?); lra).
  destruct (analyze_2mix_returns self peak Hsr Hpeak) as (desc & Hdesc & Hrms & Hpk & _).
  exists desc, peak. repeat split; try done.
  rewrite Hrms, Hpk.
  assert (Hpeak0 : 0 <= peak).
  { unfold np_abs in Hin. apply in_map_iff in Hin as (v & <- & _). apply Rabs_pos. }
  assert (Hbound : Forall (fun v => Rabs v <= peak) (np_mean_axis0 (self_y self))).
  { unfold np_abs in Hle. by apply Forall_map in Hle. }
  pose proof (librosa_feature_rms_bounds _ 2048 512 peak Hpeak0 Hbound) as Hframes.
  assert (Hmean : 0 <= np_mean (librosa_feature_rms (np_mean_axis0 (self_y self)) 2048 512)
                  <= peak).
  { split.
    - apply np_mean_nonneg. eapply Forall_impl; [exact Hframes|]. intros v Hv. apply Hv.
    - apply np_mean_le; [done|]. eapply Forall_impl; [exact Hframes|]. intros v Hv. apply Hv. }
  pose proof eps_pos.
  apply Rmult_le_compat_l; [lra|]. apply np_log10_le; lra.
Qed.

(** C7. On a valid buffer of silence [analyze_2mix] returns a descriptor
    with rms_db and peak_db both 20 log10 (1e-10), that is -200, and a
    dynamic range of 0. *)
Theorem analyze_2mix_silence (self : AudioAnalyzer) :
  valid_buffer self →
  all_zero self →
  ∃ desc,
    analyze_2mix sos signal_butter signal_sosfilt self = Ok desc ∧
    rms_db desc = 20 * np_log10 eps ∧
    peak_db desc = 20 * np_log10 eps ∧
    20 * np_log10 eps = -200 ∧
    dynamic_range desc = 0.
Proof.
  intros Hvalid Hzero.
  pose proof (np_mean_axis0_zeros _ Hzero) as Hmono.
  pose proof (np_max_zeros _ (valid_buffer_mono self Hvalid) (np_abs_zeros _ Hmono)) as Hpeak.
  assert (Hsr : self_sr self ≠ 0) by (destruct Hvalid as (_ & _ & _ & ?); lra).
  destruct (analyze_2mix_returns self 0 Hsr Hpeak)
    as (desc & Hdesc & Hrms & Hpk & _ & _ & Hdyn).
  exists desc. split; [done|].
  pose proof (librosa_feature_rms_zeros _ 2048 512 Hmono) as Hframes.
  split; [|split; [|split; [apply np_log10_eps|]]].
  - rewrite Hrms, (np_mean_zeros _ Hframes). by rewrite Rplus_0_l.
  - rewrite Hpk. by rewrite Rplus_0_l.
  - rewrite Hdyn. unfold calculate_dynamic_range. cbv zeta.
    set (levels := map _ _).
    assert (Hlevels : Forall (fun x => x = 20 * np_log10 (0 + eps)) levels).
    { subst levels. apply Forall_map.
      eapply Forall_impl; [exact Hframes|]. by intros v ->. }
    assert (Hne : levels ≠ []).
    { intros Hnil. apply (f_equal (@length R)) in Hnil. subst levels.
      rewrite length_map, librosa_feature_rms_length in Hnil. simpl in Hnil. lia. }
    rewrite !(np_percentile_constant levels (20 * np_log10 (0 + eps))); [lra|..]; try done; lia.
Qed.

(** Without samples the peak fails, after the framewise RMS. *)
Lemma analyze_2mix_without_samples (self : AudioAnalyzer) :
  self_y self ≠ [] →
  n_samples self = 0%nat →
  librosa_feature_rms (np_mean_axis0 (self_y self)) 2048 512 = [0] ∧
  analyze_2mix sos signal_butter signal_sosfilt self = Raise (ValueError zero_size_maximum).
Proof.
  intros _ Hn.
  assert (Hmono : np_mean_axis0 (self_y self) = []).
  { apply length_zero_iff_nil. by rewrite np_mean_axis0_length. }
  rewrite Hmono. split.
  - pose proof (librosa_feature_rms_zeros [] 2048 512 (List.Forall_nil _)) as Hz.
    pose proof (librosa_feature_rms_length [] 2048 512) as Hlen.
    rewrite np_pad_length in Hlen.
    change (1 + (2048 / 2 + length (@nil R) + 2048 / 2 - 2048) / 512)%nat with 1%nat in Hlen.
    destruct (librosa_feature_rms [] 2048 512) as [|v [|w rest]]; [done| |done].
    inversion Hz; subst. reflexivity.
  - unfold analyze_2mix. cbv zeta. rewrite Hmono. reflexivity.
Qed.

(** C1, as the code has it.  [analyze_2mix] checks nothing about its input.
    On a buffer of one channel or more whose channels have length zero
    (hence a duration of zero) the framewise RMS is computed first, one
    frame of padding with RMS 0, and the peak then fails inside numpy:
    the call raises the ValueError of [np.max] on an empty array, and
    returns no descriptor.  (A buffer without any channel is left out:
    [load_audio] builds none.) *)
Theorem analyze_2mix_empty_raises_value_error (self : AudioAnalyzer) :
  self_y self ≠ [] →
  n_samples self = 0%nat →
  librosa_feature_rms (np_mean_axis0 (self_y self)) 2048 512 = [0] ∧
  analyze_2mix sos signal_butter signal_sosfilt self = Raise (ValueError zero_size_maximum) ∧
  (∀ desc, analyze_2mix sos signal_butter signal_sosfilt self ≠ Ok desc).
Proof.
  intros Hy Hn. destruct (analyze_2mix_without_samples self Hy Hn) as [Hrms Hraise].
  split; [done|]. split; [done|]. intros desc. by rewrite Hraise.
Qed.

End Extractor.

Lemma stereo_analyzer_valid : valid_buffer stereo_analyzer.
Proof.
  unfold valid_buffer, n_samples. simpl.
  split; [lia|]. split; [lia|]. split; [by repeat constructor | lra].
Qed.

Lemma stereo_analyzer_nominal : nominal_range stereo_analyzer.
Proof.
  unfold nominal_range, nominal. simpl.
  repeat constructor; unfold Rabs; destruct (Rcase_abs _); lra.
Qed.

Lemma silent_analyzer_valid : valid_buffer silent_analyzer.
Proof.
  unfold valid_buffer, n_samples. simpl.
  split; [lia|]. split; [lia|]. split; [by repeat constructor | lra].
Qed.

Lemma silent_analyzer_all_zero : all_zero silent_analyzer.
Proof. unfold all_zero. simpl. by repeat constructor. Qed.

(** Witness of C1's theorem: the analyzer of an empty file. *)
Lemma analyze_2mix_empty_file :
  analyze_2mix unit identity_butter identity_sosfilt empty_analyzer
  = Raise (ValueError zero_size_maximum).
Proof.
  apply (analyze_2mix_empty_raises_value_error unit identity_butter identity_sosfilt
           empty_analyzer).
  - discriminate.
  - reflexivity.
Defined.

(** Counterexample to C1 as stated: the analyzer of an empty file has two
    channels without samples and a duration of zero; on it the framewise
    RMS, a feature, is computed (one frame, of RMS 0), and the call then
    ends in the ValueError that [np.max] raises on an empty array, with
    numpy's message about a zero-size reduction: no check of the input
    came first, and the error is not one about the input. *)
Lemma analyze_2mix_empty_file_no_invalid_input :
  length (self_y empty_analyzer) = 2%nat ∧
  n_samples empty_analyzer = 0%nat ∧
  self_duration empty_analyzer = 0 ∧
  librosa_feature_rms (np_mean_axis0 (self_y empty_analyzer)) 2048 512 = [0] ∧
  np_max (np_abs (np_mean_axis0 (self_y empty_analyzer)))
  = Raise (ValueError zero_size_maximum) ∧
  analyze_2mix unit identity_butter identity_sosfilt empty_analyzer
  = Raise (ValueError zero_size_maximum) ∧
  class_name (ValueError zero_size_maximum) = "ValueError".
Proof.
  destruct (analyze_2mix_without_samples unit identity_butter identity_sosfilt
              empty_analyzer) as [Hrms Hraise]; [discriminate | reflexivity |].
  split; [done|]. split; [done|]. split; [simpl; unfold Rdiv; lra|].
  split; [exact Hrms|]. split; [reflexivity|]. split; [exact Hraise | reflexivity].
Qed.

(** Witness of C2's theorem: scenario B, a window from 100 Hz down to 50 Hz
    at 44100 Hz. *)
Lemma bandpass_filter_inverted_window :
  bandpass_filter unit identity_butter identity_sosfilt stereo_analyzer
    [1; -1 / 2; 1 / 4] 100 50
  = Ok [0; 0; 0].
Proof.
  destruct (bandpass_filter_fail_soft unit identity_butter identity_sosfilt stereo_analyzer
              [1; -1 / 2; 1 / 4] 100 50) as (H & _ & _).
  - simpl. lra.
  - apply H. simpl. unfold np_clip, Rmin, Rmax.
    repeat destruct (Rle_dec _ _); lra.
Defined.

(** Witness of C5's theorem. *)
Lemma analyze_2mix_stereo_rms_le_peak :
  ∃ desc peak,
    analyze_2mix unit identity_butter identity_sosfilt stereo_analyzer = Ok desc ∧
    np_max (np_abs (np_mean_axis0 (self_y stereo_analyzer))) = Ok peak ∧
    rms_db desc =
      20 * np_log10
             (np_mean (librosa_feature_rms (np_mean_axis0 (self_y stereo_analyzer)) 2048 512)
              + eps) ∧
    peak_db desc = 20 * np_log10 (peak + eps) ∧
    rms_db desc <= peak_db desc.
Proof.
  apply (analyze_2mix_rms_le_peak unit identity_butter identity_sosfilt stereo_analyzer).
  - apply stereo_analyzer_valid.
  - apply stereo_analyzer_nominal.
Defined.

(** Witness of C7's theorem. *)
Lemma analyze_2mix_silent_file :
  ∃ desc,
    analyze_2mix unit identity_butter identity_sosfilt silent_analyzer = Ok desc ∧
    rms_db desc = 20 * np_log10 eps ∧
    peak_db desc = 20 * np_log10 eps ∧
    20 * np_log10 eps = -200 ∧
    dynamic_range desc = 0.
Proof.
  apply (analyze_2mix_silence unit identity_butter identity_sosfilt silent_analyzer).
  - apply silent_analyzer_valid.
  - apply silent_analyzer_all_zero.
Defined.

(** Witness of C6's theorem: a stereo file within the nominal range, and
    two identical channels. *)
Lemma calculate_stereo_width_silent_file :
  nominal_range stereo_analyzer ∧
  0 <= calculate_stereo_width stereo_analyzer <= 100 ∧
  calculate_stereo_width silent_analyzer = 0.
Proof.
  split; [apply stereo_analyzer_nominal|]. split.
  - destruct (calculate_stereo_width_bounds stereo_analyzer) as (H & _).
    apply H, stereo_analyzer_nominal.
  - destruct (calculate_stereo_width_bounds silent_analyzer) as (_ & H & _).
    apply H. reflexivity.
Defined.

(** Witness of C10's theorem: a file of two channels. *)
Lemma load_audio_stereo_file_channels :
  (length (self_y stereo_analyzer) <? 2)%nat = false.
Proof.
  destruct (load_audio_mono_width [] 44100) as (_ & _ & _ & H).
  apply (H (Array2 [[1 / 2; -1 / 4]; [1 / 2; 0]])). simpl. lia.
Defined.

End AnalyzerFacts.

(** * The float32 reading where a square overflows *)

Section OverflowFacts.

Lemma loud_buffer_mono :
  Binary32.np_mean_axis0 Binary32.loud_buffer
  = [Binary32.power_of_two 69; Binary32.zero32].
Proof. vm_compute. reflexivity. Qed.

Lemma loud_buffer_mean_rms :
  Binary32.np_mean
    (Binary32.librosa_feature_rms (Binary32.np_mean_axis0 Binary32.loud_buffer) 2048 512)
  = S754_infinity false.
Proof. vm_compute. reflexivity. Qed.

Lemma loud_buffer_peak :
  Binary32.np_max (Binary32.np_abs (Binary32.np_mean_axis0 Binary32.loud_buffer))
  = Ok (S754_finite false 8388608 46).
Proof. vm_compute. reflexivity. Qed.

Lemma decibels_positive (m : positive) (e : Z) :
  ∃ r, Binary32.decibels (S754_finite false m e) = Binary32.Finite r.
Proof.
  unfold Binary32.decibels. cbv zeta.
  assert (H : (0 < Binary32.value (S754_finite false m e) + eps)%R).
  { unfold Binary32.value. simpl.
    assert (0 < IZR (Z.pos m))%R by (apply IZR_lt; lia).
    assert (0 < powerRZ 2 e)%R by (apply powerRZ_lt; lra).
    pose proof eps_pos. nra. }
  destruct (Rlt_dec _ _); [by eexists | done].
Qed.

(** Counterexample to C5 as stated.  The buffer of two channels and two
    samples whose first left sample is 2^70 is valid; its mono downmix is
    2^69 and 0; the square of 2^69 is beyond float32, so the framewise RMS
    and its mean are +inf and rms_db is +inf, while the peak 2^69 and
    peak_db are finite: rms_db is above peak_db, and the crest factor is
    -inf. *)
Lemma analyze_2mix_levels_loud :
  length Binary32.loud_buffer = 2%nat ∧
  Forall (fun row => length row = 2%nat) Binary32.loud_buffer ∧
  ∃ levels,
    Binary32.analyze_2mix_levels Binary32.loud_buffer = Ok levels ∧
    Binary32.rms_db levels = Binary32.PlusInfinity ∧
    (∃ r, Binary32.peak_db levels = Binary32.Finite r) ∧
    Binary32.crest_factor levels = Binary32.MinusInfinity ∧
    ¬ Binary32.level_le (Binary32.rms_db levels) (Binary32.peak_db levels).
Proof.
  split; [reflexivity|]. split; [by repeat constructor|].
  unfold Binary32.analyze_2mix_levels. cbv zeta.
  rewrite loud_buffer_mean_rms, loud_buffer_peak. cbn [mbind result_bind].
  destruct (decibels_positive 8388608 46) as [r Hr].
  eexists. split; [reflexivity|]. cbn [Binary32.rms_db Binary32.peak_db Binary32.crest_factor].
  rewrite Hr. cbn.
  split; [done|]. split; [by exists r|]. split; [done|]. by intros [].
Qed.

(** Counterexample to C6 as stated.  On the same buffer the mid and the
    side signal are both 2^69 and 0; their float32 energies are +inf, the
    ratio inf / inf is nan, and nan comes through the product by 100 and
    through [np.clip], with either rule of numpy for the product: the
    width is nan, which is not within [0, 100]. *)
Lemma calculate_stereo_width_overflow :
  Binary32.calculate_stereo_width false Binary32.loud_buffer = S754_nan ∧
  Binary32.calculate_stereo_width true Binary32.loud_buffer = S754_nan ∧
  SFleb (S754_zero false) S754_nan = false ∧
  ¬ Binary32.within_0_100 S754_nan.
Proof.
  split; [by vm_compute|]. split; [by vm_compute|]. split; [by vm_compute|].
  intros [H _]. by vm_compute in H.
Qed.

End OverflowFacts.

(** * Further properties of the analyzer *)

Section AnalyzerMore.

Local Open Scope R_scope.

(** *** Sorting and percentiles *)

Lemma insert_sorted_sorted (x : R) (l : list R) :
  StronglySorted Rle l → StronglySorted Rle (insert_sorted x l).
Proof.
  induction 1 as [|y l Hl IH Hy]; simpl; [by repeat constructor|].
  destruct (Rle_dec x y) as [Hxy|Hxy].
  - constructor; [by constructor|]. constructor; [done|].
    eapply Forall_impl; [exact Hy|]. intros z Hz. simpl in *. lra.
  - constructor; [done|]. apply insert_sorted_Forall; [lra | done].
Qed.

Lemma np_sort_sorted (a : list R) : StronglySorted Rle (np_sort a).
Proof.
  unfold np_sort. induction a as [|x a IH]; simpl; [constructor|].
  by apply insert_sorted_sorted.
Qed.

Lemma sorted_nth_le (l : list R) (i j : nat) :
  StronglySorted Rle l → (i ≤ j)%nat → (j < length l)%nat → nth i l 0 <= nth j l 0.
Proof.
  intros Hs. revert i j. induction Hs as [|x l Hl IH Hx]; intros i j Hij Hj; simpl in Hj; [lia|].
  destruct i as [|i], j as [|j]; simpl; try lia; try lra.
  - rewrite List.Forall_forall in Hx. apply Hx, nth_In. lia.
  - apply IH; lia.
Qed.

(** A percentile lies between the two order statistics it interpolates. *)
Lemma np_percentile_between (a : list R) (q : nat) :
  (q ≤ 100)%nat → a ≠ [] →
  nth (q * (length a - 1) / 100) (np_sort a) 0 <= np_percentile a q
  <= nth (Nat.min (q * (length a - 1) / 100 + 1) (length a - 1)) (np_sort a) 0.
Proof.
  intros Hq Hne. unfold np_percentile. cbv zeta.
  assert (Hn : (1 ≤ length a)%nat) by (destruct a; [done | simpl; lia]).
  set (below := (q * (length a - 1) / 100)%nat).
  set (above := Nat.min (below + 1) (length a - 1)).
  assert (Hbelow : (below ≤ length a - 1)%nat).
  { apply Nat.Div0.div_le_upper_bound. nia. }
  assert (Hle : nth below (np_sort a) 0 <= nth above (np_sort a) 0).
  { apply sorted_nth_le; [apply np_sort_sorted | lia | rewrite np_sort_length; lia]. }
  assert (Hg : 0 <= INR (q * (length a - 1) mod 100) / 100 < 1).
  { pose proof (Nat.mod_upper_bound (q * (length a - 1)) 100 ltac:(lia)) as Hm.
    apply lt_INR in Hm. pose proof (pos_INR (q * (length a - 1) mod 100)) as Hp.
    replace (INR 100) with 100 in Hm by (simpl; lra). lra. }
  nra.
Qed.

Lemma np_percentile_monotone (a : list R) (q1 q2 : nat) :
  (q1 ≤ q2)%nat → (q2 ≤ 100)%nat → a ≠ [] → np_percentile a q1 <= np_percentile a q2.
Proof.
  intros H12 H2 Hne.
  assert (Hn : (1 ≤ length a)%nat) by (destruct a; [done | simpl; lia]).
  pose proof (np_percentile_between a q1 ltac:(lia) Hne) as [_ Hup].
  pose proof (np_percentile_between a q2 H2 Hne) as [Hlow _].
  assert (Hdiv : (q1 * (length a - 1) / 100 ≤ q2 * (length a - 1) / 100)%nat).
  { apply Nat.Div0.div_le_mono. nia. }
  assert (Hb2 : (q2 * (length a - 1) / 100 ≤ length a - 1)%nat).
  { apply Nat.Div0.div_le_upper_bound. nia. }
  destruct (decide (q1 * (length a - 1) / 100 = q2 * (length a - 1) / 100)%nat) as [Heq|Hne'].
  - unfold np_percentile. cbv zeta. rewrite Heq.
    set (below := (q2 * (length a - 1) / 100)%nat).
    set (above := Nat.min (below + 1) (length a - 1)).
    assert (Hle : nth below (np_sort a) 0 <= nth above (np_sort a) 0).
    { apply sorted_nth_le; [apply np_sort_sorted | lia | rewrite np_sort_length; lia]. }
    assert (Hmod : (q1 * (length a - 1) mod 100 ≤ q2 * (length a - 1) mod 100)%nat).
    { pose proof (Nat.div_mod_eq (q1 * (length a - 1)) 100).
      pose proof (Nat.div_mod_eq (q2 * (length a - 1)) 100). nia. }
    apply le_INR in Hmod. nra.
  - eapply Rle_trans; [exact Hup|]. eapply Rle_trans; [|exact Hlow].
    apply sorted_nth_le; [apply np_sort_sorted | lia | rewrite np_sort_length; lia].
Qed.

Lemma percentile_spread_nonneg (audio : list R) : 0 <= calculate_dynamic_range audio.
Proof.
  unfold calculate_dynamic_range. cbv zeta.
  set (levels := map _ _).
  assert (Hne : levels ≠ []).
  { intros Hnil. apply (f_equal (@length R)) in Hnil. subst levels.
    rewrite length_map, librosa_feature_rms_length in Hnil. simpl in Hnil. lia. }
  pose proof (np_percentile_monotone levels 10 95 ltac:(lia) ltac:(lia) Hne). lra.
Qed.

(** X1. For a signal within the nominal range [-1, 1] the dynamic range
    is not negative: the 95th percentile of the framewise levels is at
    least the 10th.  (Beyond that range a float32 square can overflow and
    the percentiles become inf - inf.) *)
Theorem calculate_dynamic_range_nonneg (audio : list R) :
  nominal audio →
  0 <= calculate_dynamic_range audio.
Proof. intros _. apply percentile_spread_nonneg. Qed.

(** *** Degenerate windows and band energies *)

Lemma np_square_times_zero (audio : list R) :
  Forall (fun x => x = 0) (np_square (times_zero audio)).
Proof.
  unfold np_square, times_zero. rewrite map_map. apply Forall_map, Forall_forall.
  intros x _. cbv beta. lra.
Qed.

Lemma level_of_zeros (audio : list R) :
  20 * np_log10 (sqrt (np_mean (np_square (times_zero audio))) + eps) = -200.
Proof.
  rewrite (np_mean_zeros _ (np_square_times_zero audio)), sqrt_0, Rplus_0_l.
  apply np_log10_eps.
Qed.

Lemma level_floor (x : R) : 0 <= x → -200 <= 20 * np_log10 (x + eps).
Proof.
  intros Hx. rewrite <- np_log10_eps. pose proof eps_pos.
  apply Rmult_le_compat_l; [lra|]. apply np_log10_le; lra.
Qed.



Section Bands.

Variable sos : Type.
Variable signal_butter : nat → R → R → result sos.
Variable signal_sosfilt : sos → list R → result (list R).

Lemma bandpass_filter_degenerate self audio low high :
  0 < self_sr self →
  high <= low ∨ 0.999 * (self_sr self / 2) <= low ∨ high <= 0.001 * (self_sr self / 2) →
  bandpass_filter sos signal_butter signal_sosfilt self audio low high
  = Ok (times_zero audio).
Proof.
  intros Hsr Hwin. rewrite bandpass_filter_unfold by lra. cbv zeta.
  destruct (Rge_dec _ _) as [|Hlt]; [done|]. exfalso. apply Hlt. clear Hlt.
  set (nyq := self_sr self / 2) in *.
  assert (Hnyq : 0 < nyq) by (unfold nyq; lra).
  assert (Hinv : 0 < / nyq) by (by apply Rinv_0_lt_compat).
  assert (Hcase : low / nyq >= high / nyq ∨ 0.999 <= low / nyq ∨ high / nyq <= 0.001).
  { destruct Hwin as [H|[H|H]].
    - left. apply Rle_ge. unfold Rdiv. by apply Rmult_le_compat_r; [lra|].
    - right; left. apply Rmult_le_reg_r with nyq; [done|].
      unfold Rdiv. rewrite Rmult_assoc, Rinv_l by lra. lra.
    - right; right. apply Rmult_le_reg_r with nyq; [done|].
      unfold Rdiv. rewrite Rmult_assoc, Rinv_l by lra. lra. }
  unfold np_clip, Rmin, Rmax. repeat destruct (Rle_dec _ _); lra.
Qed.


(** X2. A window whose upper frequency is not above its lower one, or
    which starts at 99.9% of the Nyquist frequency or above, or ends at
    0.1% of it or below, is never filtered: at a positive rate
    [bandpass_filter] returns zeros, as many as the input has samples,
    without calling scipy's result into play. *)
Theorem bandpass_filter_degenerate_window self audio low high :
  0 < self_sr self →
  high <= low ∨ 0.999 * (self_sr self / 2) <= low ∨ high <= 0.001 * (self_sr self / 2) →
  bandpass_filter sos signal_butter signal_sosfilt self audio low high
  = Ok (repeat 0 (length audio)).
Proof.
  intros Hsr Hwin. rewrite <- times_zero_zeros. by apply bandpass_filter_degenerate.
Qed.

(** The energies of a list of bands, when every filtered signal is known
    to satisfy [P] on its level. *)
Lemma band_energies_each (P : R → Prop) self audio (table : list (string * (R * R))) :
  (∀ low high, ∃ filtered,
      bandpass_filter sos signal_butter signal_sosfilt self audio low high = Ok filtered ∧
      P (20 * np_log10 (sqrt (np_mean (np_square filtered)) + eps))) →
  ∃ energies,
    mapM (fun band : string * (R * R) =>
            let '(name, (low, high)) := band in
            filtered ← bandpass_filter sos signal_butter signal_sosfilt self audio low high;
            Ok (name, 20 * np_log10 (sqrt (np_mean (np_square filtered)) + eps)))
         table = Ok energies ∧
    map fst energies = map fst table ∧
    Forall (fun e => P (snd e)) energies.
Proof.
  intros Hf. induction table as [|[name [low high]] rest IH]; simpl.
  - exists []. by repeat split.
  - destruct (Hf low high) as (filtered & -> & HP). simpl.
    destruct IH as (energies & -> & Hnames & Hall). simpl.
    eexists. split; [reflexivity|]. simpl. split; [by rewrite Hnames|].
    by constructor.
Qed.

Lemma calculate_band_energies_floor self audio :
  self_sr self ≠ 0 →
  ∃ energies,
    calculate_band_energies sos signal_butter signal_sosfilt self audio = Ok energies ∧
    map fst energies = band_names ∧
    Forall (fun e => -200 <= snd e) energies.
Proof.
  intros Hsr. unfold calculate_band_energies, band_names.
  apply (band_energies_each (fun v => -200 <= v)). intros low high.
  destruct (bandpass_filter_returns sos signal_butter signal_sosfilt self audio low high Hsr)
    as [out Hout].
  exists out. split; [done|]. apply level_floor, sqrt_pos.
Qed.

(** X3. [calculate_band_energies] returns one energy per band of the table,
    under the seven names in table order, and none is below -200 dB, the
    level of the guard 1e-10.  (The signal is not empty and scipy's
    filtering keeps its length: numpy's mean of an empty array is nan.) *)
Theorem calculate_band_energies_seven_bands self audio :
  self_sr self ≠ 0 →
  audio ≠ [] →
  keeps_length signal_sosfilt →
  ∃ energies,
    calculate_band_energies sos signal_butter signal_sosfilt self audio = Ok energies ∧
    map fst energies =
      ["sub_bass"; "bass"; "low_mid"; "mid"; "high_mid"; "presence"; "brilliance"] ∧
    Forall (fun e => -200 <= snd e) energies.
Proof. intros Hsr _ _. by apply calculate_band_energies_floor. Qed.

(** X4. When scipy's filter design raises for every window, the band
    energies are still returned, and every band reads -200 dB: a failed
    filter is reported as the level of silence. *)
Theorem calculate_band_energies_design_fails self audio :
  self_sr self ≠ 0 →
  audio ≠ [] →
  (∀ low_norm high_norm, ∃ e, signal_butter 4%nat low_norm high_norm = Raise e) →
  ∃ energies,
    calculate_band_energies sos signal_butter signal_sosfilt self audio = Ok energies ∧
    map fst energies = band_names ∧
    Forall (fun e => snd e = -200) energies.
Proof.
  intros Hsr _ Hfail. unfold calculate_band_energies, band_names.
  apply (band_energies_each (fun v => v = -200)). intros low high.
  exists (times_zero audio). split; [|apply level_of_zeros].
  rewrite bandpass_filter_unfold by done. cbv zeta.
  destruct (Rge_dec _ _); [done|].
  destruct (Hfail (np_clip (low / (self_sr self / 2)) 0.001 0.999)
                  (np_clip (high / (self_sr self / 2)) 0.001 0.999)) as [e ->].
  reflexivity.
Qed.

End Bands.

(** *** Levels of the mix *)

Lemma np_max_ok (a : list R) (peak : R) :
  np_max a = Ok peak → Forall (fun x => x <= peak) a ∧ In peak a.
Proof.
  intros H. destruct a as [|x t]; [done|].
  destruct (np_max_spec (x :: t) ltac:(done)) as (M & HM & Hle & Hin).
  rewrite HM in H. by injection H as ->.
Qed.

Lemma mix_levels (mono : list R) (peak : R) :
  np_max (np_abs mono) = Ok peak →
  0 <= peak ∧
  -200 <= 20 * np_log10 (np_mean (librosa_feature_rms mono 2048 512) + eps)
       <= 20 * np_log10 (peak + eps).
Proof.
  intros Hpeak. destruct (np_max_ok _ _ Hpeak) as [Hle Hin].
  assert (Hpeak0 : 0 <= peak).
  { unfold np_abs in Hin. apply in_map_iff in Hin as (v & <- & _). apply Rabs_pos. }
  split; [done|].
  assert (Hbound : Forall (fun v => Rabs v <= peak) mono).
  { unfold np_abs in Hle. by apply Forall_map in Hle. }
  pose proof (librosa_feature_rms_bounds mono 2048 512 peak Hpeak0 Hbound) as Hframes.
  assert (Hmean : 0 <= np_mean (librosa_feature_rms mono 2048 512) <= peak).
  { split.
    - apply np_mean_nonneg. eapply Forall_impl; [exact Hframes|]. intros v Hv. apply Hv.
    - apply np_mean_le; [done|]. eapply Forall_impl; [exact Hframes|]. intros v Hv. apply Hv. }
  split; [apply level_floor; lra|].
  pose proof eps_pos. apply Rmult_le_compat_l; [lra|]. apply np_log10_le; lra.
Qed.

Lemma np_sum_abs_le (a : list R) (B : R) :
  Forall (fun x => Rabs x <= B) a → Rabs (np_sum a) <= INR (length a) * B.
Proof.
  induction 1 as [|x a Hx _ IH]; [simpl; rewrite Rabs_R0; lra|].
  change (length (x :: a)) with (S (length a)). rewrite S_INR. simpl.
  eapply Rle_trans; [apply Rabs_triang|]. lra.
Qed.

Lemma np_mean_abs_le (a : list R) (B : R) :
  0 <= B → Forall (fun x => Rabs x <= B) a → Rabs (np_mean a) <= B.
Proof.
  intros HB Ha. unfold np_mean. destruct a as [|x t].
  - simpl. unfold Rdiv. rewrite Rmult_0_l, Rabs_R0. lra.
  - assert (Hn : 0 < INR (length (x :: t))) by (apply lt_0_INR; simpl; lia).
    apply np_sum_abs_le in Ha.
    unfold Rdiv. rewrite Rabs_mult, (Rabs_right (/ _)).
    + apply Rmult_le_reg_r with (INR (length (x :: t))); [done|].
      rewrite Rmult_assoc, Rinv_l by lra. lra.
    + apply Rle_ge. left. by apply Rinv_0_lt_compat.
Qed.

Lemma nth_abs_le (row : list R) (i : nat) (B : R) :
  0 <= B → Forall (fun x => Rabs x <= B) row → Rabs (nth i row 0) <= B.
Proof.
  intros HB H. revert i. induction H as [|x row Hx _ IH]; intros [|i]; simpl;
    rewrite ?Rabs_R0; auto.
Qed.

Lemma np_mean_axis0_abs_le (y : list (list R)) (B : R) :
  0 <= B → Forall (Forall (fun x => Rabs x <= B)) y →
  Forall (fun x => Rabs x <= B) (np_mean_axis0 y).
Proof.
  intros HB H. unfold np_mean_axis0. apply Forall_map, Forall_forall. intros i _.
  apply np_mean_abs_le; [done|]. unfold column. apply Forall_map.
  eapply Forall_impl; [exact H|]. intros row Hrow. by apply nth_abs_le.
Qed.



(** *** Stereo width *)

Lemma mid_energy_swap (a b : list R) : mid_energy a b = mid_energy b a.
Proof.
  unfold mid_energy. cbv zeta. f_equal. f_equal. f_equal.
  revert b. induction a as [|x a IH]; intros [|y b]; simpl; try done.
  rewrite IH. f_equal. lra.
Qed.

Lemma side_energy_swap (a b : list R) : side_energy a b = side_energy b a.
Proof.
  unfold side_energy, np_square, np_sum. cbv zeta.
  revert b. induction a as [|x a IH]; intros [|y b]; cbn [map2 map fold_right]; try done.
  rewrite IH. field.
Qed.

(** X6. The stereo width does not depend on which of the first two
    channels is left and which is right. *)
Theorem calculate_stereo_width_swap (left right : list R) (others : list (list R))
    (rate seconds : R) :
  calculate_stereo_width
    {| self_y := left :: right :: others; self_sr := rate; self_duration := seconds |} =
  calculate_stereo_width
    {| self_y := right :: left :: others; self_sr := rate; self_duration := seconds |}.
Proof.
  unfold calculate_stereo_width. simpl.
  by rewrite (mid_energy_swap left right), (side_energy_swap left right).
Qed.

Lemma np_sum_square_pos (a : list R) :
  (∃ x, In x a ∧ x ≠ 0) → 0 < np_sum (np_square a).
Proof.
  intros (x & Hin & Hx). induction a as [|y a IH]; [done|].
  assert (Hrest : 0 <= np_sum (np_square a)).
  { apply np_sum_nonneg. unfold np_square. apply Forall_map, Forall_forall.
    intros v _. apply pow2_ge_0. }
  simpl. destruct Hin as [->|Hin].
  - assert (0 < x ^ 2) by (apply pow_lt_0_compat_l || nra). lra.
  - pose proof (pow2_ge_0 y). specialize (IH Hin). lra.
Qed.

Lemma mid_energy_opposite (a : list R) : mid_energy a (map Ropp a) = 0.
Proof.
  unfold mid_energy. cbv zeta. apply np_sum_zeros, np_square_zeros, halve_zeros.
  induction a as [|x a IH]; simpl; constructor; [lra | done].
Qed.

Lemma side_energy_opposite (a : list R) : side_energy a (map Ropp a) = np_sum (np_square a).
Proof.
  unfold side_energy. cbv zeta. f_equal. unfold np_square.
  induction a as [|x a IH]; cbn [map2 map]; [done|]. rewrite IH. f_equal. field.
Qed.

(** X7. Two channels in opposite phase (the right channel is the left one
    negated), within the nominal range [-1, 1] and with a sample of
    magnitude 2^-60 or more, have a stereo width of exactly 100.  (The
    two bounds keep the float32 energy from overflowing and from
    underflowing to zero.) *)
Theorem calculate_stereo_width_opposite_phase (left : list R) (rate seconds : R) :
  nominal left →
  audible left →
  calculate_stereo_width
    {| self_y := [left; map Ropp left]; self_sr := rate; self_duration := seconds |} = 100.
Proof.
  intros _ Haudible.
  assert (Hx : ∃ x, In x left ∧ x ≠ 0).
  { apply Exists_exists in Haudible as (x & Hin & Hx). exists x.
    split; [by apply list_elem_of_In|].
    intros ->. rewrite Rabs_R0 in Hx.
    assert (0 < / 2 ^ 60) by (apply Rinv_0_lt_compat, pow_lt; lra). lra. }
  unfold calculate_stereo_width. simpl.
  rewrite mid_energy_opposite, side_energy_opposite.
  pose proof (np_sum_square_pos left Hx) as Hpos.
  destruct (Req_dec_T _ 0) as [H0|_]; [lra|].
  replace (np_sum (np_square left) / (0 + np_sum (np_square left)) * 100) with 100
    by (field; lra).
  unfold np_clip. rewrite Rmax_left by lra. apply Rmin_left. lra.
Qed.

(** *** The descriptors *)


Lemma map2_zeros (f : R → R → R) (a b : list R) :
  f 0 0 = 0 → Forall (fun x => x = 0) a → Forall (fun x => x = 0) b →
  Forall (fun x => x = 0) (map2 f a b).
Proof.
  intros Hf Ha. revert b. induction Ha as [|x a Hx _ IH]; intros b Hb; [constructor|].
  destruct Hb as [|y b Hy Hb]; simpl; constructor; [by subst | by apply IH].
Qed.

Lemma stereo_width_silence (self : AudioAnalyzer) :
  all_zero self → calculate_stereo_width self = 0.
Proof.
  intros Hzero. unfold calculate_stereo_width.
  destruct (length (self_y self) <? 2)%nat; [done|]. cbv zeta.
  assert (Hrow : ∀ i, Forall (fun x => x = 0) (nth i (self_y self) [])).
  { intros i. unfold all_zero in Hzero. rewrite List.Forall_forall in Hzero.
    destruct (nth_in_or_default i (self_y self) []) as [Hin| ->]; [by apply Hzero | constructor]. }
  assert (Hmid : mid_energy (nth 0 (self_y self) []) (nth 1 (self_y self) []) = 0).
  { unfold mid_energy. cbv zeta.
    apply np_sum_zeros, np_square_zeros, halve_zeros, map2_zeros; [lra|apply Hrow..]. }
  assert (Hside : side_energy (nth 0 (self_y self) []) (nth 1 (self_y self) []) = 0).
  { unfold side_energy. cbv zeta.
    apply np_sum_zeros, np_square_zeros, halve_zeros, map2_zeros; [lra|apply Hrow..]. }
  rewrite Hmid, Hside. destruct (Req_dec_T _ 0); [done | lra].
Qed.

Section Descriptors.

Variable sos : Type.
Variable signal_butter : nat → R → R → result sos.
Variable signal_sosfilt : sos → list R → result (list R).
Variable feature_spectral_centroid : list R → R → list R.

Lemma analyze_2mix_fields self peak energies :
  np_max (np_abs (np_mean_axis0 (self_y self))) = Ok peak →
  calculate_band_energies sos signal_butter signal_sosfilt self (np_mean_axis0 (self_y self))
  = Ok energies →
  analyze_2mix sos signal_butter signal_sosfilt self =
  Ok {| rms_db :=
          20 * np_log10
                 (np_mean (librosa_feature_rms (np_mean_axis0 (self_y self)) 2048 512) + eps);
        peak_db := 20 * np_log10 (peak + eps);
        crest_factor :=
          20 * np_log10 (peak + eps) -
          20 * np_log10
                 (np_mean (librosa_feature_rms (np_mean_axis0 (self_y self)) 2048 512) + eps);
        stereo_width := calculate_stereo_width self;
        band_energies := energies;
        dynamic_range := calculate_dynamic_range (np_mean_axis0 (self_y self));
        duration := self_duration self |}.
Proof.
  intros Hpeak Hbands. unfold analyze_2mix. cbv zeta. rewrite Hpeak. simpl.
  rewrite Hbands. reflexivity.
Qed.

(** X9. On a valid buffer whose samples are within the nominal range
    [-1, 1] the descriptor of [analyze_2mix] is within its ranges: rms_db is at least -200, the crest factor is not negative, the
    stereo width is between 0 and 100, the dynamic range is not negative,
    the band energies come under the seven names of the table in order,
    and the duration is the one [load_audio] stored. *)
Theorem analyze_2mix_descriptor_ranges (self : AudioAnalyzer) :
  valid_buffer self →
  nominal_range self →
  ∃ desc,
    analyze_2mix sos signal_butter signal_sosfilt self = Ok desc ∧
    -200 <= rms_db desc ∧
    0 <= crest_factor desc ∧
    0 <= stereo_width desc <= 100 ∧
    0 <= dynamic_range desc ∧
    map fst (band_energies desc) = band_names ∧
    duration desc = self_duration self.
Proof.
  intros Hvalid _.
  destruct (np_max_spec _ (valid_buffer_mono self Hvalid)) as (peak & Hpeak & _).
  assert (Hsr : self_sr self ≠ 0) by (destruct Hvalid as (_ & _ & _ & ?); lra).
  destruct (calculate_band_energies_floor sos signal_butter signal_sosfilt self
              (np_mean_axis0 (self_y self)) Hsr) as (energies & Hbands & Hnames & _).
  eexists. split; [by apply analyze_2mix_fields|]. simpl.
  destruct (mix_levels _ _ Hpeak) as (_ & Hfloor & Hle).
  split; [done|]. split; [lra|]. split; [apply stereo_width_range|].
  split; [apply percentile_spread_nonneg|]. by split.
Qed.

(** On a valid buffer of silence the crest factor and the stereo width
    are both exactly 0. *)
Theorem analyze_2mix_silence_crest_width (self : AudioAnalyzer) :
  valid_buffer self →
  all_zero self →
  ∃ desc,
    analyze_2mix sos signal_butter signal_sosfilt self = Ok desc ∧
    crest_factor desc = 0 ∧
    stereo_width desc = 0.
Proof.
  intros Hvalid Hzero.
  pose proof (np_mean_axis0_zeros _ Hzero) as Hmono.
  pose proof (np_max_zeros _ (valid_buffer_mono self Hvalid) (np_abs_zeros _ Hmono)) as Hpeak.
  assert (Hsr : self_sr self ≠ 0) by (destruct Hvalid as (_ & _ & _ & ?); lra).
  destruct (calculate_band_energies_floor sos signal_butter signal_sosfilt self
              (np_mean_axis0 (self_y self)) Hsr) as (energies & Hbands & _).
  eexists. split; [by apply analyze_2mix_fields|]. simpl.
  split; [|by apply stereo_width_silence].
  rewrite (np_mean_zeros _ (librosa_feature_rms_zeros _ 2048 512 Hmono)). lra.
Qed.




End Descriptors.

Lemma identity_sosfilt_keeps_length : keeps_length identity_sosfilt.
Proof. intros design audio out [= <-]. done. Qed.

Lemma stereo_analyzer_rate : 0 < self_sr stereo_analyzer.
Proof. simpl. lra. Qed.

(** Witness of X2: 100 Hz down to 50 Hz at 44100 Hz. *)
Lemma bandpass_filter_degenerate_window_at_44100 :
  bandpass_filter unit identity_butter identity_sosfilt stereo_analyzer [1; -1 / 2] 100 50
  = Ok [0; 0].
Proof.
  apply (bandpass_filter_degenerate_window unit identity_butter identity_sosfilt
           stereo_analyzer [1; -1 / 2] 100 50).
  - apply stereo_analyzer_rate.
  - left. lra.
Defined.

(** Witness of X3. *)
Lemma calculate_band_energies_seven_bands_stereo :
  ∃ energies,
    calculate_band_energies unit identity_butter identity_sosfilt stereo_analyzer [1; -1 / 2]
    = Ok energies ∧
    map fst energies =
      ["sub_bass"; "bass"; "low_mid"; "mid"; "high_mid"; "presence"; "brilliance"] ∧
    Forall (fun e => -200 <= snd e) energies.
Proof.
  apply (calculate_band_energies_seven_bands unit identity_butter identity_sosfilt
           stereo_analyzer [1; -1 / 2]).
  - simpl. lra.
  - done.
  - apply identity_sosfilt_keeps_length.
Defined.

(** Witness of X4. *)
Lemma calculate_band_energies_design_fails_stereo :
  ∃ energies,
    calculate_band_energies unit failing_butter identity_sosfilt stereo_analyzer [1; -1 / 2]
    = Ok energies ∧
    map fst energies = band_names ∧
    Forall (fun e => snd e = -200) energies.
Proof.
  apply (calculate_band_energies_design_fails unit failing_butter identity_sosfilt
           stereo_analyzer [1; -1 / 2]).
  - simpl. lra.
  - done.
  - intros low_norm high_norm. by eexists.
Defined.

(** Witness of X9. *)
Lemma analyze_2mix_descriptor_ranges_stereo :
  ∃ desc,
    analyze_2mix unit identity_butter identity_sosfilt stereo_analyzer = Ok desc ∧
    -200 <= rms_db desc ∧
    0 <= crest_factor desc ∧
    0 <= stereo_width desc <= 100 ∧
    0 <= dynamic_range desc ∧
    map fst (band_energies desc) = band_names ∧
    duration desc = self_duration stereo_analyzer.
Proof.
  apply (analyze_2mix_descriptor_ranges unit identity_butter identity_sosfilt stereo_analyzer).
  - apply stereo_analyzer_valid.
  - apply stereo_analyzer_nominal.
Defined.

(** An instance. *)
Lemma analyze_2mix_silence_crest_width_silent :
  ∃ desc,
    analyze_2mix unit identity_butter identity_sosfilt silent_analyzer = Ok desc ∧
    crest_factor desc = 0 ∧
    stereo_width desc = 0.
Proof.
  apply (analyze_2mix_silence_crest_width unit identity_butter identity_sosfilt
           silent_analyzer).
  - apply silent_analyzer_valid.
  - apply silent_analyzer_all_zero.
Defined.



(** Witness of X7. *)
Lemma calculate_stereo_width_opposite_phase_example :
  calculate_stereo_width
    {| self_y := [[1 / 2; -1 / 4]; map Ropp [1 / 2; -1 / 4]];
       self_sr := 44100; self_duration := 0 |} = 100.
Proof.
  apply (calculate_stereo_width_opposite_phase [1 / 2; -1 / 4] 44100 0).
  - repeat constructor; unfold Rabs; destruct (Rcase_abs _); lra.
  - apply Exists_cons_hd.
    assert (/ 2 ^ 60 <= / 2).
    { apply Rinv_le_contravar; [lra|]. rewrite <- (pow_1 2) at 1.
      apply Rle_pow; [lra | lia]. }
    unfold Rabs; destruct (Rcase_abs _); lra.
Defined.

(** Witness of X1. *)
Lemma calculate_dynamic_range_nonneg_two_samples :
  nominal [1 / 2; -1 / 4] ∧ 0 <= calculate_dynamic_range [1 / 2; -1 / 4].
Proof.
  assert (H : nominal [1 / 2; -1 / 4]).
  { repeat constructor; unfold Rabs; destruct (Rcase_abs _); lra. }
  split; [exact H|]. exact (calculate_dynamic_range_nonneg [1 / 2; -1 / 4] H).
Defined.

End AnalyzerMore.

(** * Further properties of the recommendation engine *)

Section EngineMore.

Implicit Types (d : gmap string pyval) (r : Recommendations).

(** One step of a block at a time, as in the section above. *)
Ltac block_steps :=
  repeat first
    [ rewrite bind_getitem
    | rewrite bind_eval
    | rewrite advise_run
    | rewrite skip_run
    | progress cbn [analysis_data metadata recommendations] ].

Ltac block_cases_more :=
  block_steps;
  repeat (match goal with
          | |- context [match ?x with _ => _ end] =>
              lazymatch x with
              | context [match _ with _ => _ end] => fail
              | _ => destruct x eqn:?
              end
          end; block_steps);
  try done.

(** *** What a block does on a missing, a non-numeric and a float metric *)

Lemma check_rms_missing d : d !! "rms_db" = None → advice_of check_rms d = Raise (KeyError "rms_db").
Proof. intros H. unfold advice_of, check_rms. rewrite bind_getitem. cbn [analysis_data]. by rewrite H. Qed.

Lemma check_peak_missing d : d !! "peak_db" = None → advice_of check_peak d = Raise (KeyError "peak_db").
Proof. intros H. unfold advice_of, check_peak. rewrite bind_getitem. cbn [analysis_data]. by rewrite H. Qed.

Lemma check_crest_factor_missing d :
  d !! "crest_factor" = None → advice_of check_crest_factor d = Raise (KeyError "crest_factor").
Proof.
  intros H. unfold advice_of, check_crest_factor. rewrite bind_getitem.
  cbn [analysis_data]. by rewrite H.
Qed.

Lemma check_stereo_width_missing d :
  d !! "stereo_width" = None → advice_of check_stereo_width d = Raise (KeyError "stereo_width").
Proof.
  intros H. unfold advice_of, check_stereo_width. rewrite bind_getitem.
  cbn [analysis_data]. by rewrite H.
Qed.

Lemma check_rms_non_numeric d : non_numeric_metric d "rms_db" → advice_of check_rms d = Raise TypeError.
Proof.
  intros (v & H & Hv). unfold advice_of, check_rms. rewrite bind_getitem.
  cbn [analysis_data]. rewrite H, bind_eval. by destruct v.
Qed.

Lemma check_peak_non_numeric d : non_numeric_metric d "peak_db" → advice_of check_peak d = Raise TypeError.
Proof.
  intros (v & H & Hv). unfold advice_of, check_peak. rewrite bind_getitem.
  cbn [analysis_data]. rewrite H, bind_eval. by destruct v.
Qed.

Lemma check_crest_factor_non_numeric d :
  non_numeric_metric d "crest_factor" → advice_of check_crest_factor d = Raise TypeError.
Proof.
  intros (v & H & Hv). unfold advice_of, check_crest_factor. rewrite bind_getitem.
  cbn [analysis_data]. rewrite H, bind_eval. by destruct v.
Qed.

Lemma check_stereo_width_non_numeric d :
  non_numeric_metric d "stereo_width" → advice_of check_stereo_width d = Raise TypeError.
Proof.
  intros (v & H & Hv). unfold advice_of, check_stereo_width. rewrite bind_getitem.
  cbn [analysis_data]. rewrite H, bind_eval. by destruct v.
Qed.

(** On a float metric a block never raises. *)
Lemma check_rms_float d : float_metric d "rms_db" → ∃ δ, advice_of check_rms d = Ok δ.
Proof.
  intros (f & H). unfold advice_of, check_rms. rewrite bind_getitem.
  cbn [analysis_data]. rewrite H. unfold py_between. cbn [py_lt py_gt py_ge py_le].
  block_steps. cbn [mbind result_bind].
  repeat (match goal with |- context [if ?b then _ else _] => destruct b end;
          block_steps; cbn [py_format_1f mbind result_bind]); by eexists.
Qed.

Lemma check_peak_float d : float_metric d "peak_db" → ∃ δ, advice_of check_peak d = Ok δ.
Proof.
  intros (f & H). unfold advice_of, check_peak. rewrite bind_getitem.
  cbn [analysis_data]. rewrite H. cbn [py_lt py_gt py_ge py_le].
  block_steps.
  repeat (match goal with |- context [if ?b then _ else _] => destruct b end;
          block_steps; cbn [py_format_1f mbind result_bind]); by eexists.
Qed.

Lemma check_crest_factor_float d :
  float_metric d "crest_factor" → ∃ δ, advice_of check_crest_factor d = Ok δ.
Proof.
  intros (f & H). unfold advice_of, check_crest_factor. rewrite bind_getitem.
  cbn [analysis_data]. rewrite H. unfold py_between. cbn [py_lt py_gt py_ge py_le].
  block_steps. cbn [mbind result_bind].
  repeat (match goal with |- context [if ?b then _ else _] => destruct b end;
          block_steps; cbn [py_format_1f mbind result_bind]); by eexists.
Qed.

Lemma check_stereo_width_float d :
  float_metric d "stereo_width" → ∃ δ, advice_of check_stereo_width d = Ok δ.
Proof.
  intros (f & H). unfold advice_of, check_stereo_width. rewrite bind_getitem.
  cbn [analysis_data]. rewrite H. unfold py_between. cbn [py_lt py_gt py_ge py_le].
  block_steps. cbn [mbind result_bind].
  repeat (match goal with |- context [if ?b then _ else _] => destruct b end;
          block_steps; cbn [py_format_1f mbind result_bind]); by eexists.
Qed.

(** X13. A missing metric raises KeyError with its own key, and the first
    one missing in the order rms_db, peak_db, crest_factor, stereo_width
    decides when the metrics before it are floats; the messages already
    appended are lost with the exception. *)
Theorem generate_recommendations_key_error (d m : gmap string pyval) :
  (d !! "rms_db" = None →
   generate_recommendations d m = Raise (KeyError "rms_db")) ∧
  (float_metric d "rms_db" → d !! "peak_db" = None →
   generate_recommendations d m = Raise (KeyError "peak_db")) ∧
  (float_metric d "rms_db" → float_metric d "peak_db" → d !! "crest_factor" = None →
   generate_recommendations d m = Raise (KeyError "crest_factor")) ∧
  (float_metric d "rms_db" → float_metric d "peak_db" → float_metric d "crest_factor" →
   d !! "stereo_width" = None →
   generate_recommendations d m = Raise (KeyError "stereo_width")).
Proof.
  rewrite generate_recommendations_unfold. repeat split.
  - intros H. by rewrite (check_rms_missing d H).
  - intros H1 H. destruct (check_rms_float d H1) as [? ->].
    by rewrite (check_peak_missing d H).
  - intros H1 H2 H. destruct (check_rms_float d H1) as [? ->].
    destruct (check_peak_float d H2) as [? ->].
    by rewrite (check_crest_factor_missing d H).
  - intros H1 H2 H3 H. destruct (check_rms_float d H1) as [? ->].
    destruct (check_peak_float d H2) as [? ->].
    destruct (check_crest_factor_float d H3) as [? ->].
    by rewrite (check_stereo_width_missing d H).
Qed.

(** Witness of X13: the descriptor without its stereo_width entry. *)
Lemma generate_recommendations_without_stereo_width :
  generate_recommendations (delete "stereo_width" descriptor_full) metadata_club
  = Raise (KeyError "stereo_width").
Proof.
  destruct (generate_recommendations_key_error
              (delete "stereo_width" descriptor_full) metadata_club) as (_ & _ & _ & H).
  apply H; first [by vm_compute | eexists; vm_compute; reflexivity].
Defined.

(** X14. A metric that is a string, a tuple or a dictionary raises
    TypeError at its first comparison, again in the order of the four
    blocks. *)
Theorem generate_recommendations_type_error (d m : gmap string pyval) :
  (non_numeric_metric d "rms_db" →
   generate_recommendations d m = Raise TypeError) ∧
  (float_metric d "rms_db" → non_numeric_metric d "peak_db" →
   generate_recommendations d m = Raise TypeError) ∧
  (float_metric d "rms_db" → float_metric d "peak_db" →
   non_numeric_metric d "crest_factor" →
   generate_recommendations d m = Raise TypeError) ∧
  (float_metric d "rms_db" → float_metric d "peak_db" → float_metric d "crest_factor" →
   non_numeric_metric d "stereo_width" →
   generate_recommendations d m = Raise TypeError).
Proof.
  rewrite generate_recommendations_unfold. repeat split.
  - intros H. by rewrite (check_rms_non_numeric d H).
  - intros H1 H. destruct (check_rms_float d H1) as [? ->].
    by rewrite (check_peak_non_numeric d H).
  - intros H1 H2 H. destruct (check_rms_float d H1) as [? ->].
    destruct (check_peak_float d H2) as [? ->].
    by rewrite (check_crest_factor_non_numeric d H).
  - intros H1 H2 H3 H. destruct (check_rms_float d H1) as [? ->].
    destruct (check_peak_float d H2) as [? ->].
    destruct (check_crest_factor_float d H3) as [? ->].
    by rewrite (check_stereo_width_non_numeric d H).
Qed.

(** Witness of X14: the rms stored as text. *)
Lemma generate_recommendations_text_rms :
  generate_recommendations (<["rms_db" := PyStr "-18.5"]> descriptor_full) metadata_club
  = Raise TypeError.
Proof.
  destruct (generate_recommendations_type_error
              (<["rms_db" := PyStr "-18.5"]> descriptor_full) metadata_club) as (H & _).
  apply H. exists (PyStr "-18.5"). split; [vm_compute; reflexivity | exact I].
Defined.

(** X15. With four float metrics, whatever their values (nan and the
    infinities included) and whatever else the two dictionaries hold,
    [generate_recommendations] returns and raises nothing. *)
Theorem generate_recommendations_float_total (rms peak cf width : float)
    (d m : gmap string pyval) :
  ∃ r, generate_recommendations
         (with_metrics (PyFloat rms) (PyFloat peak) (PyFloat cf) (PyFloat width) d) m = Ok r.
Proof.
  rewrite generate_recommendations_unfold.
  destruct (with_metrics_lookup (PyFloat rms) (PyFloat peak) (PyFloat cf) (PyFloat width) d)
    as (H1 & H2 & H3 & H4).
  destruct (check_rms_float _ (ex_intro _ rms H1)) as [? ->].
  destruct (check_peak_float _ (ex_intro _ peak H2)) as [? ->].
  destruct (check_crest_factor_float _ (ex_intro _ cf H3)) as [? ->].
  destruct (check_stereo_width_float _ (ex_intro _ width H4)) as [? ->].
  by eexists.
Qed.

(** A descriptor whose four metrics are nan gets no advice at all, and
    no error: every comparison with nan is false. *)
Theorem generate_recommendations_nan (d m : gmap string pyval) :
  generate_recommendations
    (with_metrics (PyFloat nan) (PyFloat nan) (PyFloat nan) (PyFloat nan) d) m
  = Ok no_recommendations.
Proof. rewrite generate_recommendations_with_metrics. vm_compute. reflexivity. Qed.

(** *** Which block writes under which key *)

Lemma check_rms_silent_in_important d : silent_in important d check_rms.
Proof. unfold silent_in, advice_of, check_rms. block_cases_more. Qed.

Lemma check_peak_silent_in_good_points d : silent_in good_points d check_peak.
Proof. unfold silent_in, advice_of, check_peak. block_cases_more. Qed.

Lemma check_crest_factor_silent_in_critical d : silent_in critical d check_crest_factor.
Proof. unfold silent_in, advice_of, check_crest_factor. block_cases_more. Qed.

Lemma check_stereo_width_silent_in_critical d : silent_in critical d check_stereo_width.
Proof. unfold silent_in, advice_of, check_stereo_width. block_cases_more. Qed.

Lemma count_lengths r :
  (count r ≤ 1)%nat →
  (length (rec_critical r) ≤ 1 ∧ length (rec_important r) ≤ 1 ∧
   length (rec_good_points r) ≤ 1)%nat.
Proof. unfold count. lia. Qed.

(** X16. Whatever the descriptor, a result holds at most four messages: at
    most two critical ones (rms and peak), at most three important ones
    (peak, crest factor, stereo width) and at most three good points (rms,
    crest factor, stereo width). *)
Theorem generate_recommendations_cardinality (d m : gmap string pyval) (r : Recommendations) :
  generate_recommendations d m = Ok r →
  (length (rec_critical r) ≤ 2)%nat ∧
  (length (rec_important r) ≤ 3)%nat ∧
  (length (rec_good_points r) ≤ 3)%nat ∧
  (count r ≤ 4)%nat.
Proof.
  rewrite generate_recommendations_unfold.
  pose proof (check_rms_at_most_one d) as A1.
  pose proof (check_peak_at_most_one d) as A2.
  pose proof (check_crest_factor_at_most_one d) as A3.
  pose proof (check_stereo_width_at_most_one d) as A4.
  pose proof (check_rms_silent_in_important d) as S1.
  pose proof (check_peak_silent_in_good_points d) as S2.
  pose proof (check_crest_factor_silent_in_critical d) as S3.
  pose proof (check_stereo_width_silent_in_critical d) as S4.
  unfold at_most_one, silent_in in *.
  destruct (advice_of check_rms d) as [r1|]; [|done].
  destruct (advice_of check_peak d) as [r2|]; [|done].
  destruct (advice_of check_crest_factor d) as [r3|]; [|done].
  destruct (advice_of check_stereo_width d) as [r4|]; [|done].
  simpl. intros [= <-]. simpl in *.
  unfold count in *. unfold merge. simpl.
  rewrite !length_app. rewrite S1 in A1. rewrite S2 in A2. rewrite S3 in A3. rewrite S4 in A4.
  rewrite S1, S2, S3, S4. simpl in *. lia.
Qed.

(** Witness of X16. *)
Lemma generate_recommendations_cardinality_scenario_c :
  (length [msg_rms_low "-25.0"] ≤ 2)%nat ∧
  (length [msg_cf_low "6.0"; msg_width_narrow "20.0"] ≤ 3)%nat ∧
  (length (@nil string) ≤ 3)%nat ∧
  (count {| rec_critical := [msg_rms_low "-25.0"];
            rec_important := [msg_cf_low "6.0"; msg_width_narrow "20.0"];
            rec_good_points := [] |} ≤ 4)%nat.
Proof.
  apply (generate_recommendations_cardinality
           (with_metrics (PyFloat (-25)) (PyFloat (-3)) (PyFloat 6) (PyFloat 20) ∅) ∅
           {| rec_critical := [msg_rms_low "-25.0"];
              rec_important := [msg_cf_low "6.0"; msg_width_narrow "20.0"];
              rec_good_points := [] |}).
  vm_compute. reflexivity.
Defined.

(** The critical messages of the rms and peak blocks on floats. *)
Lemma check_rms_critical (f : float) d δ :
  d !! "rms_db" = Some (PyFloat f) →
  advice_of check_rms d = Ok δ →
  (rec_critical δ = [] ↔ (f <? -23)%float = false ∧ (-14 <? f)%float = false).
Proof.
  intros H. unfold advice_of, check_rms. rewrite bind_getitem.
  cbn [analysis_data]. rewrite H. unfold py_between. cbn [py_lt py_gt py_ge py_le].
  change (lit (-23)) with (-23)%float. change (lit (-14)) with (-14)%float.
  block_steps. cbn [mbind result_bind].
  destruct (f <? -23)%float; block_steps; cbn [py_format_1f];
    [intros [= <-]; simpl; split; [done | by intros []]|].
  destruct (-14 <? f)%float; block_steps; cbn [py_format_1f];
    [intros [= <-]; simpl; split; [done | by intros []]|].
  destruct (lit (-20) <=? f)%float; cbn [mbind result_bind]; block_steps;
    [destruct (f <=? lit (-16))%float; block_steps; cbn [py_format_1f]|];
    intros [= <-]; simpl; split; done.
Qed.

Lemma check_peak_critical (f : float) d δ :
  d !! "peak_db" = Some (PyFloat f) →
  advice_of check_peak d = Ok δ →
  (rec_critical δ = [] ↔ (-1 <? f)%float = false).
Proof.
  intros H. unfold advice_of, check_peak. rewrite bind_getitem.
  cbn [analysis_data]. rewrite H. cbn [py_lt py_gt py_ge py_le].
  change (lit (-1)) with (-1)%float.
  block_steps.
  destruct (-1 <? f)%float; block_steps; cbn [py_format_1f];
    [intros [= <-]; simpl; split; done|].
  destruct (f <? lit (-6))%float; block_steps; cbn [py_format_1f];
    intros [= <-]; simpl; split; done.
Qed.

(** X17. For float metrics the critical list is empty exactly when rms_db
    is neither below -23 nor above -14 and peak_db is not above -1 (a nan
    passes every test); crest factor and stereo width never make a result
    critical. *)
Theorem no_critical_advice_iff (rms peak cf width : float) (d m : gmap string pyval)
    (r : Recommendations) :
  generate_recommendations
    (with_metrics (PyFloat rms) (PyFloat peak) (PyFloat cf) (PyFloat width) d) m = Ok r →
  (rec_critical r = [] ↔
   (rms <? -23)%float = false ∧ (-14 <? rms)%float = false ∧ (-1 <? peak)%float = false).
Proof.
  rewrite generate_recommendations_unfold.
  destruct (with_metrics_lookup (PyFloat rms) (PyFloat peak) (PyFloat cf) (PyFloat width) d)
    as (H1 & H2 & _ & _).
  set (dd := with_metrics _ _ _ _ d) in *.
  pose proof (check_rms_critical rms dd) as C1.
  pose proof (check_peak_critical peak dd) as C2.
  pose proof (check_crest_factor_silent_in_critical dd) as S3.
  pose proof (check_stereo_width_silent_in_critical dd) as S4.
  unfold silent_in in *.
  destruct (advice_of check_rms dd) as [r1|]; [|done].
  destruct (advice_of check_peak dd) as [r2|]; [|done].
  destruct (advice_of check_crest_factor dd) as [r3|]; [|done].
  destruct (advice_of check_stereo_width dd) as [r4|]; [|done].
  simpl. intros [= <-]. simpl in S3, S4. simpl. rewrite S3, S4, !app_nil_r.
  specialize (C1 r1 H1 eq_refl). specialize (C2 r2 H2 eq_refl).
  split.
  - intros Happ. apply app_eq_nil in Happ as [Ha Hb].
    apply C1 in Ha. apply C2 in Hb. tauto.
  - intros (Ha & Hb & Hc).
    destruct C1 as [_ C1]. destruct C2 as [_ C2]. by rewrite C1, C2.
Qed.

(** Witness of X17: the full descriptor of the samples. *)
Lemma no_critical_advice_descriptor_full :
  rec_critical {| rec_critical := []; rec_important := []; rec_good_points :=
                    [msg_rms_good "-18.5"; msg_width_good "55.0"] |} = [] ↔
  (-18.5 <? -23)%float = false ∧ (-14 <? -18.5)%float = false ∧ (-1 <? -3.25)%float = false.
Proof.
  apply (no_critical_advice_iff (-18.5) (-3.25) 15.25 55 ∅ ∅
           {| rec_critical := []; rec_important := []; rec_good_points :=
                [msg_rms_good "-18.5"; msg_width_good "55.0"] |}).
  vm_compute. reflexivity.
Defined.

End EngineMore.

(** * Properties of the store of analyses *)

Section AddressFacts.

Lemma append_assoc (a b c : string) : (a +:+ b) +:+ c = a +:+ (b +:+ c).
Proof.
  induction a as [|x a IH]; [done|].
  change (String x ((a +:+ b) +:+ c) = String x (a +:+ (b +:+ c))). by rewrite IH.
Qed.

Lemma flat_map_string_app (f : Ascii.ascii → string) (a b : string) :
  flat_map_string f (a +:+ b) = flat_map_string f a +:+ flat_map_string f b.
Proof.
  induction a as [|x a IH]; [done|].
  change (String x a +:+ b) with (String x (a +:+ b)). cbn [flat_map_string].
  by rewrite IH, append_assoc.
Qed.

(** Replacing a pattern of one character works character by character. *)
Lemma str_replace_char (a : Ascii.ascii) (new s : string) :
  str_replace (String a EmptyString) new s
  = flat_map_string (fun c => if Ascii.eqb a c then new else String c EmptyString) s.
Proof.
  unfold str_replace. induction s as [|c s IH]; simpl; [done|].
  destruct (Ascii.eqb a c); simpl; by rewrite IH.
Qed.

Lemma flat_map_string_compose (f g : Ascii.ascii → string) (s : string) :
  flat_map_string g (flat_map_string f s)
  = flat_map_string (fun c => flat_map_string g (f c)) s.
Proof. induction s as [|c s IH]; cbn [flat_map_string]; [done|]. by rewrite flat_map_string_app, IH. Qed.

Lemma flat_map_string_ext (f g : Ascii.ascii → string) (s : string) :
  (∀ c, f c = g c) → flat_map_string f s = flat_map_string g s.
Proof. intros H. induction s as [|c s IH]; cbn [flat_map_string]; [done|]. by rewrite H, IH. Qed.

Lemma safe_email_chars (email : string) :
  safe_email email = flat_map_string encode_char email.
Proof.
  unfold safe_email. rewrite !str_replace_char, flat_map_string_compose.
  apply flat_map_string_ext. intros c. unfold encode_char.
  rewrite (Ascii.eqb_sym "@"%char c), (Ascii.eqb_sym c "."%char).
  destruct (Ascii.eqb c "@"%char) eqn:E1; [reflexivity|].
  cbn [flat_map_string]. destruct (Ascii.eqb "."%char c); reflexivity.
Qed.

(** X18. The file name does not tell "." from "_", nor "@" from "_at_":
    two addresses that differ only so are given the same file. *)
Theorem safe_email_collisions (before after : string) :
  safe_email (before +:+ "." +:+ after) = safe_email (before +:+ "_" +:+ after) ∧
  safe_email (before +:+ "@" +:+ after) = safe_email (before +:+ "_at_" +:+ after).
Proof. rewrite !safe_email_chars, !flat_map_string_app. by split. Qed.

Lemma contains_app (c : Ascii.ascii) (a b : string) :
  contains c (a +:+ b) = contains c a || contains c b.
Proof. induction a as [|x a IH]; simpl; [done|]. rewrite IH. by destruct (Ascii.eqb x c). Qed.

Lemma flat_map_string_contains (c : Ascii.ascii) (f : Ascii.ascii → string) (s : string) :
  (∀ x, contains c (f x) = false) → contains c (flat_map_string f s) = false.
Proof.
  intros H. induction s as [|x s IH]; cbn [flat_map_string]; [done|].
  by rewrite contains_app, H, IH.
Qed.

Lemma restored_email_no_underscore (stem : string) :
  contains "_"%char (restored_email stem) = false.
Proof.
  unfold restored_email. rewrite str_replace_char.
  apply flat_map_string_contains. intros x.
  destruct (Ascii.eqb "_"%char x) eqn:E; simpl; [done|].
  rewrite Ascii.eqb_sym, E. done.
Qed.

(** X19. The address read back from a file name never holds "_": the
    analyses of a user whose address holds one are attributed, in the
    administrator's list, to another address. *)
Theorem restored_email_loses_underscore (email : string) :
  contains "_"%char email = true →
  contains "_"%char (restored_email (safe_email email)) = false ∧
  restored_email (safe_email email) ≠ email.
Proof.
  intros H. pose proof (restored_email_no_underscore (safe_email email)) as Hno.
  split; [done|]. intros Heq. rewrite Heq in Hno. congruence.
Qed.

(** Witness of X19. *)
Lemma restored_email_john_doe :
  restored_email (safe_email "john_doe@example.com") ≠ "john_doe@example.com".
Proof. apply (restored_email_loses_underscore "john_doe@example.com"). reflexivity. Defined.


Local Arguments Ascii.eqb : simpl never.

Lemma append_cons (c : ascii) (a b : string) : String c a +:+ b = String c (a +:+ b).
Proof. reflexivity. Qed.

Lemma append_empty (b : string) : EmptyString +:+ b = b.
Proof. reflexivity. Qed.

Ltac ascii_cases :=
  repeat (cbn in *; rewrite ?append_cons, ?append_empty in *;
          match goal with
          | H : true = false |- _ => discriminate H
          | H : false = true |- _ => discriminate H
          | |- context [Ascii.eqb ?a ?b] =>
              destruct (Ascii.eqb_spec a b); subst; try discriminate; try congruence
          | H : context [Ascii.eqb ?a ?b] |- _ =>
              destruct (Ascii.eqb_spec a b); subst; try discriminate; try congruence
          end).

Lemma encoded_not_at (s : string) :
  plain_address s = true → at_then_separator s = false →
  startswith (flat_map_string encode_char s) "at_" = false.
Proof.
  destruct s as [|a [|t [|c rest]]]; cbn [flat_map_string plain_address at_then_separator];
    unfold encode_char, is_separator; intros Hp Ha.
  - done.
  - ascii_cases; done.
  - ascii_cases; done.
  - ascii_cases; done.
Qed.

Lemma plain_address_no_underscore (s : string) :
  plain_address s = true → contains "_"%char s = false.
Proof.
  induction s as [|c s IH]; [done|]. cbn [plain_address contains]. intros H.
  apply andb_prop in H as [H Hs]. apply andb_prop in H as [Hc _].
  rewrite (IH Hs). by destruct (Ascii.eqb c "_"%char).
Qed.

Lemma replace_from_match (old new : string) (c : ascii) (s : string) :
  startswith (String c s) old = true →
  replace_from old new 0 (String c s)
  = new +:+ replace_from old new (String.length old - 1) s.
Proof. intros H. cbn [replace_from]. by rewrite H. Qed.

Lemma replace_from_no_match (old new : string) (c : ascii) (s : string) :
  startswith (String c s) old = false →
  replace_from old new 0 (String c s) = String c (replace_from old new 0 s).
Proof. intros H. cbn [replace_from]. by rewrite H. Qed.

Lemma startswith_cons (c p : ascii) (s old : string) :
  startswith (String c s) (String p old) = Ascii.eqb p c && startswith s old.
Proof. reflexivity. Qed.

Lemma decode_at (s : string) :
  plain_address s = true →
  replace_from "_at_" "@" 0 (flat_map_string encode_char s) = str_replace "." "_" s.
Proof.
  rewrite str_replace_char.
  induction s as [|c s IH]; [done|]. intros Hp.
  pose proof Hp as Hp'. cbn [plain_address] in Hp'.
  apply andb_prop in Hp' as [Hp' Hs]. apply andb_prop in Hp' as [Hc Hsep].
  specialize (IH Hs). cbn [flat_map_string]. unfold encode_char at 1. unfold is_separator in *.
  destruct (Ascii.eqb_spec c "@"%char) as [->|Hat].
  - change ("_at_" +:+ ?x) with (String "_" (String "a" (String "t" (String "_" x)))).
    rewrite replace_from_match by reflexivity.
    change (String.length "_at_" - 1)%nat with 3%nat. cbn [replace_from].
    rewrite IH. reflexivity.
  - destruct (Ascii.eqb_spec c "."%char) as [->|Hdot].
    + change ("_" +:+ ?x) with (String "_" x).
      rewrite replace_from_no_match.
      * rewrite IH. reflexivity.
      * rewrite startswith_cons. change (Ascii.eqb "_" "_") with true. cbn [andb].
        apply encoded_not_at; [done|].
        cbn [orb] in Hsep. by destruct (at_then_separator s).
    + change (String c "" +:+ ?x) with (String c x).
      rewrite replace_from_no_match.
      * rewrite IH. destruct (Ascii.eqb_spec "."%char c); [congruence | reflexivity].
      * rewrite startswith_cons. rewrite Ascii.eqb_sym.
        by destruct (Ascii.eqb c "_"%char).
Qed.

Lemma underscore_to_dot (s : string) :
  contains "_"%char s = false →
  str_replace "_" "." (str_replace "." "_" s) = s.
Proof.
  rewrite !str_replace_char, flat_map_string_compose.
  induction s as [|c s IH]; [done|]. cbn [contains flat_map_string]. intros H.
  apply orb_false_elim in H as [Hc Hs]. rewrite (IH Hs).
  destruct (Ascii.eqb_spec "."%char c) as [<-|Hdot]; [reflexivity|].
  cbn [flat_map_string]. rewrite Ascii.eqb_sym, Hc. reflexivity.
Qed.

(** X20. For a plain address (no "_", and no "at" standing between two of
    the separators "@" and ".") the address read back from the file name
    is the address itself. *)
Theorem restored_email_round_trip (email : string) :
  plain_address email = true →
  restored_email (safe_email email) = email.
Proof.
  intros Hp. unfold restored_email. rewrite safe_email_chars.
  unfold str_replace at 2. rewrite (decode_at email Hp).
  apply underscore_to_dot. by apply plain_address_no_underscore.
Qed.

(** Witness of X20. *)
Lemma restored_email_round_trip_example :
  restored_email (safe_email "john.doe@example.com") = "john.doe@example.com".
Proof. apply (restored_email_round_trip "john.doe@example.com"). reflexivity. Defined.

End AddressFacts.

Section StoreFacts.

Variable payload : Type.

Abbreviation entry := (entry payload).
Abbreviation directory := (directory payload).

Lemma ascii_compare_refl (c : ascii) : Ascii.compare c c = Eq.
Proof. unfold Ascii.compare. apply N.compare_refl. Qed.

Lemma string_compare_trans (s1 s2 s3 : string) :
  String.compare s1 s2 ≠ Gt → String.compare s2 s3 ≠ Gt → String.compare s1 s3 ≠ Gt.
Proof.
  revert s2 s3. induction s1 as [|c1 s1 IH]; intros [|c2 s2] [|c3 s3]; simpl; try done.
  destruct (Ascii.compare c1 c2) eqn:E12; [|clear IH|done];
    (destruct (Ascii.compare c2 c3) eqn:E23; [| |done]).
  - apply Ascii.compare_eq_iff in E12, E23. subst. rewrite ascii_compare_refl. apply IH.
  - apply Ascii.compare_eq_iff in E12. subst. by rewrite E23.
  - apply Ascii.compare_eq_iff in E23. subst. by rewrite E12.
  - unfold Ascii.compare in *. rewrite N.compare_lt_iff in E12, E23.
    assert (H : (N_of_ascii c1 < N_of_ascii c3)%N) by lia.
    apply N.compare_lt_iff in H. by rewrite H.
Qed.

Lemma string_leb_trans (s1 s2 s3 : string) :
  String.leb s1 s2 = true → String.leb s2 s3 = true → String.leb s1 s3 = true.
Proof.
  unfold String.leb. intros H12 H23.
  pose proof (string_compare_trans s1 s2 s3) as H.
  destruct (String.compare s1 s2); destruct (String.compare s2 s3);
    destruct (String.compare s1 s3); try done; exfalso; by apply H.
Qed.

Lemma insert_newest_first_perm (x : entry) (l : list entry) :
  insert_newest_first payload x l ≡ₚ x :: l.
Proof.
  induction l as [|y l IH]; simpl; [done|].
  destruct (String.leb _ _); [done|]. rewrite IH. apply Permutation_swap.
Qed.

Lemma sort_newest_first_perm (l : list entry) : sort_newest_first payload l ≡ₚ l.
Proof.
  unfold sort_newest_first. induction l as [|x l IH]; simpl; [done|].
  by rewrite insert_newest_first_perm, IH.
Qed.

Lemma insert_newest_first_sorted (x : entry) (l : list entry) :
  StronglySorted not_older l → StronglySorted not_older (insert_newest_first payload x l).
Proof.
  induction 1 as [|y l Hl IH Hy]; simpl; [by repeat constructor|].
  destruct (String.leb (entry_timestamp payload y) (entry_timestamp payload x)) eqn:E.
  - constructor; [by constructor|]. constructor; [done|].
    eapply Forall_impl; [exact Hy|]. intros z Hz. unfold not_older in *.
    by eapply string_leb_trans.
  - constructor; [done|].
    rewrite insert_newest_first_perm. constructor; [|done].
    unfold not_older. destruct (String.leb_total (entry_timestamp payload y)
                                  (entry_timestamp payload x)); congruence.
Qed.

Lemma sort_newest_first_sorted (l : list entry) :
  StronglySorted not_older (sort_newest_first payload l).
Proof.
  unfold sort_newest_first. induction l as [|x l IH]; simpl; [constructor|].
  by apply insert_newest_first_sorted.
Qed.

Lemma get_user_analyses_all (dir : directory) (email : string) :
  get_user_analyses payload dir email None = sort_newest_first payload (stored dir email).
Proof.
  unfold get_user_analyses, stored. by destruct (dir !! _get_user_db_path email).
Qed.

(** X21. [get_user_analyses] without a limit returns the stored analyses of
    the user, all of them and no other, newest first: each entry is at
    least as recent as every entry after it.  Without a file the result
    is empty. *)
Theorem get_user_analyses_newest_first (dir : directory) (email : string) :
  get_user_analyses payload dir email None ≡ₚ stored dir email ∧
  StronglySorted not_older (get_user_analyses payload dir email None) ∧
  (dir !! _get_user_db_path email = None → get_user_analyses payload dir email None = []).
Proof.
  rewrite get_user_analyses_all. split; [apply sort_newest_first_perm|].
  split; [apply sort_newest_first_sorted|].
  intros H. unfold stored. by rewrite H.
Qed.

(** X22. A limit of 0 does not give an empty list: [if limit:] is false for
    0 as for [None], and every analysis is returned.  A positive limit
    gives the first [limit] of them, the most recent ones. *)
Theorem get_user_analyses_limit (dir : directory) (email : string) :
  get_user_analyses payload dir email (Some 0%Z) = get_user_analyses payload dir email None ∧
  (∀ n : nat, (0 < n)%nat →
     get_user_analyses payload dir email (Some (Z.of_nat n))
     = firstn n (get_user_analyses payload dir email None)).
Proof.
  unfold get_user_analyses. split.
  - by destruct (dir !! _get_user_db_path email).
  - intros n Hn. destruct (dir !! _get_user_db_path email) as [l|]; [|by rewrite firstn_nil].
    cbv zeta. destruct (Z.eqb_spec (Z.of_nat n) 0); [lia|].
    unfold slice_to. destruct (Z.leb_spec 0 (Z.of_nat n)); [|lia].
    by rewrite Nat2Z.id.
Qed.

(** X23. For an address whose file name is a plain name (no "/", no NUL,
    at most 255 bytes), [add_analysis] returns the id it was given by the
    clock and appends the new entry at the end of the user's file,
    creating the file when there is none; no other file changes; the
    user's list, as [get_user_analyses] returns it, holds the new entry
    and is one longer.  (With a "/" in the address the name is a path, and
    [open] raises or writes elsewhere.) *)
Theorem add_analysis_appends (dir : directory) (email : string)
    (analysis_data metadata : payload) (id_now timestamp_now : string) :
  plain_file_name (_get_user_db_path email) = true →
  let new_entry := {| entry_id := id_now; entry_timestamp := timestamp_now;
                      entry_metadata := metadata; entry_analysis := analysis_data |} in
  let added := add_analysis payload dir email analysis_data metadata id_now timestamp_now in
  fst added = id_now ∧
  stored (snd added) email = stored dir email ++ [new_entry] ∧
  (∀ file, file ≠ _get_user_db_path email → snd added !! file = dir !! file) ∧
  new_entry ∈ get_user_analyses payload (snd added) email None ∧
  length (get_user_analyses payload (snd added) email None)
  = S (length (get_user_analyses payload dir email None)).
Proof.
  intros _ new_entry added.
  assert (Hstored : stored (snd added) email = stored dir email ++ [new_entry]).
  { unfold stored, added, add_analysis, AudioStore.directory in *. cbn [fst snd].
    by rewrite lookup_insert_eq. }
  split; [done|]. split; [done|]. split.
  - intros file Hfile. unfold added, add_analysis, AudioStore.directory in *. cbn [fst snd].
    by rewrite lookup_insert_ne.
  - rewrite !get_user_analyses_all, Hstored. split.
    + rewrite sort_newest_first_perm. apply elem_of_app. right. by apply list_elem_of_singleton.
    + rewrite !sort_newest_first_perm, length_app. simpl. lia.
Qed.

Lemma filter_length_eq (P : entry → Prop) `{∀ a, Decision (P a)} (l : list entry) :
  length (filter P l) = length l → filter P l = l.
Proof.
  induction l as [|x l IH]; [done|]. rewrite filter_cons.
  pose proof (length_filter P l) as Hle.
  destruct (decide (P x)); simpl; intros Hlen; [f_equal; apply IH; lia | lia].
Qed.

Lemma filter_length_lt (P : entry → Prop) `{∀ a, Decision (P a)} (l : list entry) :
  (length (filter P l) < length l)%nat ↔ ∃ a, a ∈ l ∧ ¬ P a.
Proof.
  split.
  - intros Hlt. induction l as [|x l IH]; [simpl in Hlt; lia|].
    rewrite filter_cons in Hlt. destruct (decide (P x)) as [Hx|Hx].
    + simpl in Hlt. destruct IH as (a & Ha & HP); [lia|].
      exists a. split; [by right | done].
    + exists x. split; [by left | done].
  - intros (a & Ha & HP). induction l as [|x l IH]; [by apply elem_of_nil in Ha|].
    rewrite filter_cons. pose proof (length_filter P l) as Hle.
    destruct (decide (P x)) as [Hx|Hx]; simpl; [|lia].
    apply elem_of_cons in Ha as [->|Ha]; [done|]. specialize (IH Ha). lia.
Qed.

Lemma delete_analysis_run (dir : directory) (email : string) (analysis_id : string) :
  delete_analysis payload dir email analysis_id =
  if decide (Exists (fun a => entry_id payload a = analysis_id) (stored dir email))
  then (true, <[_get_user_db_path email :=
                  filter (fun a => entry_id payload a ≠ analysis_id) (stored dir email)]> dir)
  else (false, dir).
Proof.
  unfold delete_analysis, stored.
  destruct (dir !! _get_user_db_path email) as [l|] eqn:Hfile.
  - cbv zeta.
    pose proof (filter_length_lt (fun a => entry_id payload a ≠ analysis_id) l) as Hlt.
    destruct (Nat.ltb_spec (length (filter (fun a => entry_id payload a ≠ analysis_id) l))
                (length l)) as [H|H].
    + apply Hlt in H. destruct (decide _) as [_|Hno]; [done|].
      exfalso. apply Hno. destruct H as (a & Ha & Hid). apply Exists_exists.
      exists a. split; [done|].
      by destruct (decide (entry_id payload a = analysis_id)).
    + destruct (decide _) as [Hex|_]; [|done].
      apply Exists_exists in Hex as (a & Ha & Hid).
      exfalso. assert (length (filter (fun a => entry_id payload a ≠ analysis_id) l)
                       < length l)%nat; [|lia].
      apply Hlt. exists a. split; [done|]. by intros Hne.
  - destruct (decide _) as [Hex|_]; [|done]. by apply Exists_nil in Hex.
Qed.

(** X24. [delete_analysis] answers True exactly when the user's file holds
    an entry with that id; it then removes every entry with that id (one
    id can be shared by entries added within the same second) and keeps
    the others in their order; when it answers False nothing changes;
    no other file is touched. *)
Theorem delete_analysis_removes_id (dir : directory) (email : string) (analysis_id : string) :
  let deleted := delete_analysis payload dir email analysis_id in
  (fst deleted = true ↔
   Exists (fun a => entry_id payload a = analysis_id) (stored dir email)) ∧
  (fst deleted = false → snd deleted = dir) ∧
  stored (snd deleted) email
  = filter (fun a => entry_id payload a ≠ analysis_id) (stored dir email) ∧
  (∀ file, file ≠ _get_user_db_path email → snd deleted !! file = dir !! file).
Proof.
  cbv zeta. rewrite delete_analysis_run.
  destruct (decide _) as [Hin|Hno]; cbn [fst snd].
  - split; [done|]. split; [done|]. split.
    + unfold stored at 1. unfold AudioStore.directory in *. by rewrite lookup_insert_eq.
    + intros file Hfile. unfold AudioStore.directory in *. by rewrite lookup_insert_ne.
  - split; [split; [done | by intros]|]. split; [done|]. split; [|done].
    symmetry. apply filter_length_eq.
    pose proof (filter_length_lt (fun a => entry_id payload a ≠ analysis_id)
                  (stored dir email)) as Hlt.
    pose proof (length_filter (fun a => entry_id payload a ≠ analysis_id)
                  (stored dir email)) as Hle.
    destruct (decide (length (filter (fun a => entry_id payload a ≠ analysis_id)
                                (stored dir email)) = length (stored dir email)));
      [done|].
    exfalso. apply Hno. destruct Hlt as [Hlt _].
    destruct Hlt as (a & Ha & Hid); [lia|]. apply Exists_exists. exists a. split; [done|].
    by destruct (decide (entry_id payload a = analysis_id)).
Qed.

(** Deleting the same id a second time answers False and changes
    nothing. *)
Theorem delete_analysis_twice (dir : directory) (email : string) (analysis_id : string) :
  delete_analysis payload (snd (delete_analysis payload dir email analysis_id))
    email analysis_id
  = (false, snd (delete_analysis payload dir email analysis_id)).
Proof.
  rewrite (delete_analysis_run dir).
  destruct (decide _) as [Hin|Hno]; cbn [snd]; rewrite delete_analysis_run.
  - destruct (decide _) as [Hex|_]; [|done]. exfalso.
    apply Exists_exists in Hex as (a & Ha & Hid).
    unfold stored in Ha at 1. unfold AudioStore.directory in *.
    rewrite lookup_insert_eq in Ha. apply list_elem_of_filter in Ha as [Hne _]. done.
  - by destruct (decide _).
Qed.


End StoreFacts.

(** Witness of X23: the first analysis of a user. *)
Lemma add_analysis_appends_first :
  plain_file_name (_get_user_db_path "pa@example.com") = true ∧
  stored (snd (add_analysis string ∅ "pa@example.com" "analysis" "metadata"
                 "20240102_100000" "2024-01-02T10:00:00"))
    "pa@example.com"
  = [{| entry_id := "20240102_100000"; entry_timestamp := "2024-01-02T10:00:00";
        entry_metadata := "metadata"; entry_analysis := "analysis" |}].
Proof.
  assert (H : plain_file_name (_get_user_db_path "pa@example.com") = true)
    by (by vm_compute).
  split; [exact H|].
  exact (proj1 (proj2 (add_analysis_appends string ∅ "pa@example.com" "analysis" "metadata"
                         "20240102_100000" "2024-01-02T10:00:00" H))).
Defined.

(** * Properties of the user database *)

Section UserFacts.

Variable sha256_hexdigest : string → string.

Local Arguments Ascii.eqb : simpl never.

Lemma split_at_separator (c : ascii) (a b : string) :
  contains c a = false → split c (a +:+ String c b) = a :: split c b.
Proof.
  induction a as [|x a IH]; intros H.
  - change (EmptyString +:+ String c b) with (String c b).
    cbn [split]. rewrite Ascii.eqb_refl. done.
  - cbn [contains] in H. apply orb_false_iff in H as [Hx Ha].
    change (String x a +:+ String c b) with (String x (a +:+ String c b)).
    cbn [split]. rewrite Hx, (IH Ha). done.
Qed.

Lemma split_no_separator (c : ascii) (s : string) : contains c s = false → split c s = [s].
Proof.
  induction s as [|a s IH]; cbn [contains split]; [done|].
  intros H. apply orb_false_iff in H as [Ha Hs]. rewrite Ha, (IH Hs). done.
Qed.

Lemma split_stored_hash (salt digest : string) :
  no_colon salt → no_colon digest → split ":" (salt +:+ ":" +:+ digest) = [salt; digest].
Proof.
  intros Hs Hd. change (salt +:+ ":" +:+ digest) with (salt +:+ String ":" digest).
  rewrite (split_at_separator _ _ _ Hs), (split_no_separator _ _ Hd). done.
Qed.

Lemma verify_hashed (salt password other : string) :
  no_colon salt → no_colon (sha256_hexdigest (password +:+ salt)) →
  _verify_password sha256_hexdigest other (JStr (_hash_password sha256_hexdigest salt password))
  = String.eqb (sha256_hexdigest (other +:+ salt)) (sha256_hexdigest (password +:+ salt)).
Proof.
  intros Hs Hd. unfold _verify_password, _hash_password.
  rewrite (split_stored_hash _ _ Hs Hd). done.
Qed.

(** X26. A password verifies against the hash that [_hash_password] made
    of it, and another password verifies against it exactly when its
    salted digest is the same; the salt and the digest hold no colon, as
    hexadecimal texts do not. *)
Theorem hash_then_verify_password (salt password : string) :
  no_colon salt → no_colon (sha256_hexdigest (password +:+ salt)) →
  let stored := JStr (_hash_password sha256_hexdigest salt password) in
  _verify_password sha256_hexdigest password stored = true
  ∧ ∀ other, _verify_password sha256_hexdigest other stored = true
             ↔ sha256_hexdigest (other +:+ salt) = sha256_hexdigest (password +:+ salt).
Proof.
  intros Hs Hd stored. subst stored. split.
  - rewrite (verify_hashed _ _ _ Hs Hd). apply String.eqb_refl.
  - intros other. rewrite (verify_hashed _ _ _ Hs Hd). apply String.eqb_eq.
Qed.

(** X27. [register_user] succeeds exactly for an address that is not yet
    registered, and never touches an existing account: a refused
    registration leaves the database as it was, an accepted one stores
    the new record, keeps every other account and writes the file. *)
Theorem register_user_never_overwrites (db : UserDatabase)
    (email password name organization location salt now : string) :
  let r := register_user sha256_hexdigest db email password name organization location salt now in
  (r.1.1 = true ↔ users db !! email = None)
  ∧ (∀ other user, users db !! other = Some user → users r.2 !! other = Some user)
  ∧ (r.1.1 = false → r.2 = db ∧ r.1.2 = msg_already_registered)
  ∧ (r.1.1 = true →
       users_file r.2 = Holds (users r.2)
       ∧ users r.2 !! email
         = Some (new_user email (_hash_password sha256_hexdigest salt password)
                   name organization location now)).
Proof.
  intros r. subst r. unfold register_user.
  destruct (users db !! email) as [u|] eqn:E; cbn.
  - split_and!; [naive_solver | done | done | done].
  - split_and!; [done | | done | ].
    + intros other user H. rewrite lookup_insert_ne; [done | congruence].
    + intros _. by rewrite lookup_insert_eq.
Qed.

Lemma register_user_fresh (db : UserDatabase)
    (email password name organization location salt now : string) :
  users db !! email = None →
  (register_user sha256_hexdigest db email password name organization location salt now).2
  = save {| users := <[email := new_user email (_hash_password sha256_hexdigest salt password)
                                  name organization location now]> (users db);
            users_file := users_file db |}.
Proof. intros H. unfold register_user. by rewrite H. Qed.

Lemma authenticate_run (db : UserDatabase) (email password now : string)
    (d : gmap string jval) (stored : jval) :
  users db !! email = Some (JObj d) → d !! "password_hash" = Some stored →
  authenticate sha256_hexdigest db email password now
  = if _verify_password sha256_hexdigest password stored
    then Ok (Accepted (JObj (<["last_login" := JStr now]> d)),
             save {| users := <[email := JObj (<["last_login" := JStr now]> d)]> (users db);
                     users_file := users_file db |})
    else Ok (Rejected msg_bad_credentials, db).
Proof.
  intros Hu Hd. unfold authenticate. rewrite Hu. cbn. rewrite Hd. cbn.
  by destruct (_verify_password sha256_hexdigest password stored).
Qed.

Lemma authenticate_unknown (db : UserDatabase) (email password now : string) :
  users db !! email = None →
  authenticate sha256_hexdigest db email password now = Ok (Rejected msg_bad_credentials, db).
Proof. intros H. unfold authenticate. by rewrite H. Qed.

(** X28. After a registration the same address and password log in: the
    returned record carries the time of the login as last_login and is the
    one stored and written to the file.  A password with another salted
    digest and an address that is not registered get the same refusal,
    and the database stays as it was. *)
Theorem register_then_authenticate (db : UserDatabase)
    (email password name organization location salt now later : string) :
  users db !! email = None →
  no_colon salt → no_colon (sha256_hexdigest (password +:+ salt)) →
  let db1 :=
    (register_user sha256_hexdigest db email password name organization location salt now).2 in
  (∃ user db2,
      authenticate sha256_hexdigest db1 email password later = Ok (Accepted user, db2)
      ∧ getitem user "last_login" = Ok (JStr later)
      ∧ users db2 !! email = Some user
      ∧ users_file db2 = Holds (users db2))
  ∧ (∀ wrong,
        sha256_hexdigest (wrong +:+ salt) ≠ sha256_hexdigest (password +:+ salt) →
        authenticate sha256_hexdigest db1 email wrong later
        = Ok (Rejected msg_bad_credentials, db1))
  ∧ (∀ unknown anything,
        users db1 !! unknown = None →
        authenticate sha256_hexdigest db1 unknown anything later
        = Ok (Rejected msg_bad_credentials, db1)).
Proof.
  intros Hfresh Hs Hd db1. subst db1. rewrite (register_user_fresh _ _ _ _ _ _ _ _ Hfresh).
  unfold new_user.
  split_and!.
  - eexists _, _. split_and!.
    + erewrite authenticate_run; [| cbn; apply lookup_insert_eq | by simplify_map_eq].
      rewrite (verify_hashed _ _ _ Hs Hd), String.eqb_refl. reflexivity.
    + cbn. by rewrite lookup_insert_eq.
    + cbn. by rewrite lookup_insert_eq.
    + done.
  - intros wrong Hw.
    erewrite authenticate_run; [| cbn; apply lookup_insert_eq | by simplify_map_eq].
    rewrite (verify_hashed _ _ _ Hs Hd).
    by apply String.eqb_neq in Hw as ->.
  - intros unknown anything H. by apply authenticate_unknown.
Qed.

(** X29. On the first start, with no users.json, the default
    administrator exists and logs in with its built-in password; recording
    an analysis for that account raises KeyError('stats'), as its record
    is created without the stats entry. *)
Theorem default_admin_stats_key_error (salt created now later : string) :
  no_colon salt → no_colon (sha256_hexdigest (admin_password +:+ salt)) →
  let db := __init__ sha256_hexdigest Missing salt created in
  ∃ user db',
    authenticate sha256_hexdigest db admin_email admin_password now = Ok (Accepted user, db')
    ∧ update_user_stats db' admin_email later = Raise (KeyError "stats").
Proof.
  intros Hs Hd db. subst db. unfold __init__, load, create_default_admin. cbn.
  eexists _, _. split.
  - erewrite authenticate_run; [| cbn; apply lookup_insert_eq | by simplify_map_eq].
    rewrite (verify_hashed _ _ _ Hs Hd), String.eqb_refl. reflexivity.
  - unfold update_user_stats. cbn. rewrite lookup_insert_eq. cbn.
    by simplify_map_eq.
Qed.

Lemma update_user_stats_run (db : UserDatabase) (email now : string)
    (d stats : gmap string jval) (n : Z) :
  users db !! email = Some (JObj d) → d !! "stats" = Some (JObj stats) →
  stats !! "total_analyses" = Some (JInt n) →
  update_user_stats db email now
  = Ok (save {| users :=
                  <[email :=
                      JObj (<["stats" :=
                                JObj (<["last_analysis_date" := JStr now]>
                                     (<["total_analyses" := JInt (n + 1)]> stats))]> d)]>
                    (users db);
                users_file := users_file db |}).
Proof.
  intros Hu Hd Hn. unfold update_user_stats. rewrite Hu. cbn. rewrite Hd. cbn.
  rewrite Hn. done.
Qed.

(** [update_user_stats] adds one to the count of the account and
    stamps the date, leaving every other account as it was; for an
    address that is not registered it does nothing and writes nothing. *)
Theorem update_user_stats_counts (db : UserDatabase) (email now : string) :
  (∀ user stats n,
      users db !! email = Some user →
      getitem user "stats" = Ok stats →
      getitem stats "total_analyses" = Ok (JInt n) →
      ∃ db' user' stats',
        update_user_stats db email now = Ok db'
        ∧ users db' !! email = Some user'
        ∧ getitem user' "stats" = Ok stats'
        ∧ getitem stats' "total_analyses" = Ok (JInt (n + 1))
        ∧ getitem stats' "last_analysis_date" = Ok (JStr now)
        ∧ users_file db' = Holds (users db')
        ∧ ∀ other, other ≠ email → users db' !! other = users db !! other)
  ∧ (users db !! email = None → update_user_stats db email now = Ok db).
Proof.
  split.
  - intros user stats n Hu Hs Hn.
    destruct user as [| | |d]; try done. cbn in Hs.
    destruct (d !! "stats") as [st|] eqn:Ed; [|done]. injection Hs as ->.
    destruct stats as [| | |sd]; try done. cbn in Hn.
    destruct (sd !! "total_analyses") as [t|] eqn:Et; [|done]. injection Hn as ->.
    eexists _, _, _. split; [by apply (update_user_stats_run _ _ _ _ _ _ Hu Ed Et)|].
    cbn. split_and!.
    + by rewrite lookup_insert_eq.
    + cbn. by rewrite lookup_insert_eq.
    + cbn. by simplify_map_eq.
    + cbn. by simplify_map_eq.
    + done.
    + intros other Ho. by rewrite lookup_insert_ne.
  - intros H. unfold update_user_stats. by rewrite H.
Qed.

Lemma change_password_run (db : UserDatabase) (email old_password new_password salt : string)
    (d : gmap string jval) (stored : jval) :
  users db !! email = Some (JObj d) → d !! "password_hash" = Some stored →
  change_password sha256_hexdigest db email old_password new_password salt
  = if _verify_password sha256_hexdigest old_password stored
    then Ok ((true, msg_password_changed),
             save {| users :=
                       <[email :=
                           JObj (<["password_hash" :=
                                     JStr (_hash_password sha256_hexdigest salt new_password)]> d)]>
                         (users db);
                     users_file := users_file db |})
    else Ok ((false, msg_wrong_password), db).
Proof.
  intros Hu Hd. unfold change_password. rewrite Hu. cbn. rewrite Hd. cbn.
  by destruct (_verify_password sha256_hexdigest old_password stored).
Qed.

(** X30. When [change_password] reports success, the new password logs
    in, the old one is refused unless its digest under the new salt is the
    same, and no other account has changed; when it reports failure the
    database is as it was. *)
Theorem change_password_replaces (db db' : UserDatabase)
    (email old_password new_password salt now message : string) (ok : bool) :
  no_colon salt → no_colon (sha256_hexdigest (new_password +:+ salt)) →
  change_password sha256_hexdigest db email old_password new_password salt
  = Ok ((ok, message), db') →
  (ok = true →
     (∃ user db'',
         authenticate sha256_hexdigest db' email new_password now = Ok (Accepted user, db''))
     ∧ (sha256_hexdigest (old_password +:+ salt) ≠ sha256_hexdigest (new_password +:+ salt) →
        authenticate sha256_hexdigest db' email old_password now
        = Ok (Rejected msg_bad_credentials, db'))
     ∧ ∀ other, other ≠ email → users db' !! other = users db !! other)
  ∧ (ok = false → db' = db).
Proof.
  intros Hs Hd Hrun. unfold change_password in Hrun.
  destruct (users db !! email) as [user|] eqn:Hu; [|by simplify_eq].
  destruct user as [| | |d]; try done. cbn in Hrun.
  destruct (d !! "password_hash") as [stored|] eqn:Ed; [|done]. cbn in Hrun.
  destruct (_verify_password sha256_hexdigest old_password stored); cbn in Hrun;
    [|by simplify_eq].
  injection Hrun as <- <- <-. split; [intros _|done]. split_and!.
  - eexists _, _.
    erewrite authenticate_run; [| cbn; apply lookup_insert_eq | apply lookup_insert_eq].
    rewrite (verify_hashed _ _ _ Hs Hd), String.eqb_refl. reflexivity.
  - intros Hne.
    erewrite authenticate_run; [| cbn; apply lookup_insert_eq | apply lookup_insert_eq].
    rewrite (verify_hashed _ _ _ Hs Hd).
    by apply String.eqb_neq in Hne as ->.
  - intros other Ho. cbn. by rewrite lookup_insert_ne.
Qed.

End UserFacts.

(** Witness of X26. *)
Lemma hash_then_verify_password_secret :
  no_colon "a1b2" ∧ no_colon (hex_text ("secret" +:+ "a1b2"))
  ∧ _verify_password hex_text "secret" (JStr (_hash_password hex_text "a1b2" "secret")) = true.
Proof.
  assert (Hs : no_colon "a1b2") by (by vm_compute).
  assert (Hd : no_colon (hex_text ("secret" +:+ "a1b2"))) by (by vm_compute).
  split_and!; [done | done |].
  exact (proj1 (hash_then_verify_password hex_text "a1b2" "secret" Hs Hd)).
Defined.

(** Witness of X28. *)
Lemma register_then_authenticate_first_account :
  users (__init__ hex_text Corrupt "00" "2024-01-01T00:00:00") !! "pa@example.com" = None
  ∧ no_colon "a1b2" ∧ no_colon (hex_text ("secret" +:+ "a1b2"))
  ∧ ∃ user db2,
      authenticate hex_text one_account "pa@example.com" "secret" "2024-01-03T09:00:00"
      = Ok (Accepted user, db2)
      ∧ getitem user "last_login" = Ok (JStr "2024-01-03T09:00:00").
Proof.
  assert (Hf : users (__init__ hex_text Corrupt "00" "2024-01-01T00:00:00")
               !! "pa@example.com" = None) by (by vm_compute).
  assert (Hs : no_colon "a1b2") by (by vm_compute).
  assert (Hd : no_colon (hex_text ("secret" +:+ "a1b2"))) by (by vm_compute).
  split_and!; [by vm_compute | done | done |].
  destruct (proj1 (register_then_authenticate hex_text _ "pa@example.com" "secret" "PA" "" ""
                     "a1b2" "2024-01-02T10:00:00" "2024-01-03T09:00:00" Hf Hs Hd))
    as (user & db2 & Ha & Hl & _).
  by exists user, db2.
Defined.

(** Witness of X29. *)
Lemma default_admin_stats_key_error_first_start :
  no_colon "00ff" ∧ no_colon (hex_text (admin_password +:+ "00ff"))
  ∧ ∃ user db',
      authenticate hex_text (__init__ hex_text Missing "00ff" "2024-01-01T00:00:00")
        admin_email admin_password "2024-01-01T00:05:00" = Ok (Accepted user, db')
      ∧ update_user_stats db' admin_email "2024-01-01T00:06:00" = Raise (KeyError "stats").
Proof.
  assert (Hs : no_colon "00ff") by (by vm_compute).
  assert (Hd : no_colon (hex_text (admin_password +:+ "00ff"))) by (by vm_compute).
  split_and!; [done | done |].
  exact (default_admin_stats_key_error hex_text "00ff" "2024-01-01T00:00:00"
           "2024-01-01T00:05:00" "2024-01-01T00:06:00" Hs Hd).
Defined.

(** Witness of X30. *)
Lemma change_password_replaces_one_account :
  no_colon "c3d4" ∧ no_colon (hex_text ("better" +:+ "c3d4"))
  ∧ ∃ db',
      change_password hex_text one_account "pa@example.com" "secret" "better" "c3d4"
      = Ok ((true, msg_password_changed), db')
      ∧ authenticate hex_text db' "pa@example.com" "secret" "2024-01-04T09:00:00"
        = Ok (Rejected msg_bad_credentials, db').
Proof.
  assert (Hs : no_colon "c3d4") by (by vm_compute).
  assert (Hd : no_colon (hex_text ("better" +:+ "c3d4"))) by (by vm_compute).
  split_and!; [done | done |].
  eexists. split; [vm_compute; reflexivity|].
  refine (proj1 (proj2 (proj1 (change_password_replaces hex_text one_account _
                   "pa@example.com" "secret" "better" "c3d4" "2024-01-04T09:00:00"
                   msg_password_changed true Hs Hd _) eq_refl)) _).
  - vm_compute. reflexivity.
  - by vm_compute.
Defined.
